(** * ZAAI fixtures: the sample class trio and the in-memory user repository

    A shallow embedding of [domains/core/foobar.py] and of the user model,
    repository and service of [domains/test/environment_test/source_py.py],
    followed by the properties of the repository/service contract.

    Modelling conventions.
    - A Python [int] is a [Z].  A Python [str] is a [string] whose characters
      stand for the code points 0..255 (the Latin-1 range); [len] is
      [String.length], a one-character [in] test is [str_contains].
    - A Python [float] is a binary64 value ([float], the kernel's IEEE 754
      double): a clock reading is such a value, [-] on floats is the IEEE
      subtraction, and [int / int] is the correctly rounded quotient, raising
      [ZeroDivisionError] for a zero divisor and [OverflowError] when the
      rounded quotient is out of range ([truediv]).
    - [User] objects are mutable and shared by reference: they live in an
      object store ([Heap]) and are named by locations ([loc]).  The
      repository's dictionary maps identifiers to locations.
    - A Python [dict] keeps insertion order, so it is an association list
      without duplicate keys ([dict_set], [dict_del], [dict_get]).
    - [time.time()] is an explicit argument [now] of the operation reading it.
    - The reentrant lock of the repository serialises calls; the embedding is
      the sequential behaviour of each call. *)

From Stdlib Require Import ZArith Floats Ascii String List Lia Bool Sorted.
From stdpp Require Import base list strings pretty.
Import ListNotations.

Open Scope string_scope.
Open Scope list_scope.
Open Scope Z_scope.

(** ** Python values and containers *)

Definition UserId := Z.
Definition Timestamp := float.

(** Values stored under [Any]: log context, error context, metadata. *)
Set Warnings "-register-all".
Inductive PyVal : Type :=
| VNone
| VBool (b : bool)
| VInt (z : Z)
| VFloat (f : float)
| VStr (s : string)
| VDict (d : list (string * PyVal)).

Definition ConfigDict := list (string * PyVal).

Section PyDict.
Context {K V : Type} `{EqDecision K}.

(** [d.get(k)] *)
Fixpoint dict_get (k : K) (d : list (K * V)) : option V :=
  match d with
  | [] => None
  | (k', v) :: d' => if decide (k = k') then Some v else dict_get k d'
  end.

(** [k in d] *)
Definition dict_in (k : K) (d : list (K * V)) : bool :=
  match dict_get k d with Some _ => true | None => false end.

(** [d[k] = v]: an existing key keeps its position, a new key goes last. *)
Fixpoint dict_set (k : K) (v : V) (d : list (K * V)) : list (K * V) :=
  match d with
  | [] => [(k, v)]
  | (k', v') :: d' =>
      if decide (k = k') then (k, v) :: d' else (k', v') :: dict_set k v d'
  end.

(** [del d[k]] (used only under [k in d]). *)
Fixpoint dict_del (k : K) (d : list (K * V)) : list (K * V) :=
  match d with
  | [] => []
  | (k', v') :: d' =>
      if decide (k = k') then d' else (k', v') :: dict_del k d'
  end.

Definition dict_keys (d : list (K * V)) : list K := map fst d.
Definition dict_values (d : list (K * V)) : list V := map snd d.
End PyDict.

(** [len(x)] as a Python [int]. *)
Definition len {A} (l : list A) : Z := Z.of_nat (length l).

(** ** Strings *)

(** [c in s] for a one-character needle. *)
Fixpoint str_contains (c : ascii) (s : string) : bool :=
  match s with
  | EmptyString => false
  | String c' s' => if Ascii.eqb c c' then true else str_contains c s'
  end.

(** [str.lower()] on one code point of the Latin-1 range: the upper-case
    letters are A..Z, U+00C0..U+00D6 and U+00D8..U+00DE, each 32 below its
    lower-case form; every other code point is unchanged. *)
Definition lower_char (c : ascii) : ascii :=
  let n := N_of_ascii c in
  if ((65 <=? n) && (n <=? 90) || (192 <=? n) && (n <=? 214)
      || (216 <=? n) && (n <=? 222))%N
  then ascii_of_N (n + 32) else c.

Fixpoint lower (s : string) : string :=
  match s with
  | EmptyString => EmptyString
  | String c s' => String (lower_char c) (lower s')
  end.

(** ** Enumerations and named tuples *)

Module UserStatus.
Inductive t := ACTIVE | INACTIVE | PENDING | SUSPENDED.

Definition name (s : t) : string :=
  match s with
  | ACTIVE => "ACTIVE"
  | INACTIVE => "INACTIVE"
  | PENDING => "PENDING"
  | SUSPENDED => "SUSPENDED"
  end.
End UserStatus.

Module LogLevel.
Inductive t := DEBUG | INFO | WARNING | ERROR | CRITICAL.

Definition value (l : t) : string :=
  match l with
  | DEBUG => "DEBUG"
  | INFO => "INFO"
  | WARNING => "WARNING"
  | ERROR => "ERROR"
  | CRITICAL => "CRITICAL"
  end.
End LogLevel.

Module UserPreferences.
Record t := mk {
  theme : string;
  notifications : bool;
  language : string;
  timezone : string
}.

Definition _asdict (p : t) : list (string * PyVal) :=
  [("theme", VStr (theme p)); ("notifications", VBool (notifications p));
   ("language", VStr (language p)); ("timezone", VStr (timezone p))].

(** The [default_factory] of [User.preferences]. *)
Definition default : t :=
  {| theme := "light"; notifications := true;
     language := "en"; timezone := "UTC" |}.
End UserPreferences.

(** ** Exceptions and outcomes *)

Module ApplicationError.
Record t := mk {
  message : string;
  error_code : string;
  context : list (string * PyVal);
  timestamp : Timestamp
}.

(** [ApplicationError.__init__(message, error_code, context)] at clock
    reading [now]; [None] or an empty context is stored as the empty dict. *)
Definition __init__ (message : string) (error_code : string)
    (context : option (list (string * PyVal))) (now : Timestamp) : t :=
  {| message := message;
     error_code := error_code;
     context := match context with Some c => c | None => [] end;
     timestamp := now |}.
End ApplicationError.

Inductive Exn : Type :=
| ValueError (msg : string)
| ZeroDivisionError (msg : string)
| OverflowError (msg : string)
| RepositoryError (e : ApplicationError.t)
| ValidationError (e : ApplicationError.t).

(** [str(e)] *)
Definition Exn_str (e : Exn) : string :=
  match e with
  | ValueError msg => msg
  | ZeroDivisionError msg => msg
  | OverflowError msg => msg
  | RepositoryError e => ApplicationError.message e
  | ValidationError e => ApplicationError.message e
  end.

(** The outcome of a call on a state of type [S]: a returned value, a raised
    exception (the state reached when it was raised is kept, since callers
    can observe it), or [Wrong] when the call was handed a reference that
    names no object, which no Python execution can do. *)
Inductive Result (A S : Type) : Type :=
| Return (a : A) (s : S)
| Raise (e : Exn) (s : S)
| Wrong.
Arguments Return {A S} a s.
Arguments Raise {A S} e s.
Arguments Wrong {A S}.

(** ** The [User] dataclass *)

Module User.
Record t := mk {
  id : UserId;
  name : string;
  email : string;
  age : option Z;
  status : UserStatus.t;
  preferences : UserPreferences.t;
  created_at : Timestamp;
  metadata : ConfigDict
}.

Definition _is_valid_email (email : string) : bool :=
  str_contains "@" email && str_contains "." email
  && (5 <? Z.of_nat (String.length email))%Z.

(** [__post_init__]: [None] when validation passes, otherwise the raised
    [ValueError]. *)
Definition __post_init__ (self : t) : option Exn :=
  if negb (_is_valid_email (email self)) then
    Some (ValueError ("Invalid email format: " +:+ email self))
  else
    match age self with
    | Some a =>
        if (a <? 0)%Z then
          Some (ValueError ("Age cannot be negative: " +:+ pretty a))
        else None
    | None => None
    end.

(** The generated [__init__]: store the fields, then [__post_init__]. *)
Definition __init__ (id : UserId) (name email : string) (age : option Z)
    (status : UserStatus.t) (preferences : UserPreferences.t)
    (created_at : Timestamp) (metadata : ConfigDict) : Exn + t :=
  let self := mk id name email age status preferences created_at metadata in
  match __post_init__ self with
  | Some e => inl e
  | None => inr self
  end.

Definition is_adult (self : t) : bool :=
  match age self with
  | Some a => (18 <=? a)%Z
  | None => false
  end.

(** Field assignments [self.status = v], [self.id = v]. *)
Definition set_status (v : UserStatus.t) (self : t) : t :=
  mk (id self) (name self) (email self) (age self) v
     (preferences self) (created_at self) (metadata self).

Definition set_id (v : UserId) (self : t) : t :=
  mk v (name self) (email self) (age self) (status self)
     (preferences self) (created_at self) (metadata self).

Definition update_status (new_status : UserStatus.t) (self : t) : t :=
  set_status new_status self.

Definition opt_int (o : option Z) : PyVal :=
  match o with Some a => VInt a | None => VNone end.

Definition to_dict (self : t) : list (string * PyVal) :=
  [("id", VInt (id self));
   ("name", VStr (name self));
   ("email", VStr (email self));
   ("age", opt_int (age self));
   ("status", VStr (UserStatus.name (status self)));
   ("preferences", VDict (UserPreferences._asdict (preferences self)));
   ("created_at", VFloat (created_at self));
   ("metadata", VDict (metadata self))].
End User.

(** ** The object store *)

Abbreviation loc := nat (only parsing).
Abbreviation Heap := (list User.t) (only parsing).

(** A newly constructed object gets the next unused location. *)
Definition alloc (h : Heap) (u : User.t) : loc * Heap := (length h, h ++ [u]).

(** The objects a list of references names, if every one names an object. *)
Fixpoint deref_all (h : Heap) (ls : list loc) : option (list User.t) :=
match ls with
| [] => Some []
| l :: ls' =>
    match h !! l, deref_all h ls' with
    | Some u, Some us => Some (u :: us)
    | _, _ => None
    end
end.

Definition Stats := list (string * PyVal).

(** The integer nearest to [num / den], ties to the even one
    ([0 <= num], [0 < den]). *)
Definition round_half_even (num den : Z) : Z :=
let q := num / den in
let r := num mod den in
if 2 * r <? den then q
else if den <? 2 * r then q + 1
else if Z.even q then q else q + 1.

(** The binary64 value nearest to [x / y], ties to even ([0 <= x], [0 < y],
    quotient in range): with [e] the binary exponent of the quotient, the
    quotient is rounded to a multiple [m * 2^q] of the unit in the last
    place, [q = max (e - 52) (-1074)]; a quotient too small for the smallest
    subnormal gives a zero; the sign is [negate]. *)
Definition nearest_binary64 (negate : bool) (x y : Z) : float :=
if x =? 0 then (if negate then PrimFloat.neg_zero else PrimFloat.zero)
else
  let e0 := Z.log2 x - Z.log2 y in
  let e :=
    if (if 0 <=? e0 then y * 2 ^ e0 <=? x else y <=? x * 2 ^ (- e0))
    then e0 else e0 - 1 in
  let q := Z.max (e - 52) (-1074) in
  let m :=
    if 0 <=? q then round_half_even x (y * 2 ^ q)
    else round_half_even (x * 2 ^ (- q)) y in
  let f := Z.ldexp (of_uint63 (Uint63.of_Z m)) q in
  if negate then (- f)%float else f.

(** The least magnitude that rounds to [2^1024]: half a unit in the last
    place above the largest binary64 value, [2^1024 - 2^971]. *)
Definition binary64_overflow : Z := 2 ^ 1024 - 2 ^ 970.

(** [int / int]: true division.  A zero divisor raises [ZeroDivisionError];
    otherwise the result is the float nearest to the exact quotient, and
    [OverflowError] is raised when that float would not be finite. *)
Definition truediv (a b : Z) : Exn + float :=
if b =? 0 then inl (ZeroDivisionError "division by zero")
else if binary64_overflow * Z.abs b <=? Z.abs a then
  inl (OverflowError "integer division result too large for a float")
else
  inr (nearest_binary64 (xorb (a <? 0) (b <? 0)) (Z.abs a) (Z.abs b)).

(** ** [InMemoryUserRepository] *)

Module InMemoryUserRepository.
Record t := mk {
  _users : list (UserId * loc);
  _next_id : UserId;
  _max_users : Z;
  _created_at : Timestamp
}.

Definition set_users (v : list (UserId * loc)) (self : t) : t :=
mk v (_next_id self) (_max_users self) (_created_at self).

Definition set_next_id (v : UserId) (self : t) : t :=
mk (_users self) v (_max_users self) (_created_at self).

Definition __init__ (max_users : Z) (now : Timestamp) : t :=
mk [] 1 max_users now.

Definition capacity_error (self : t) (now : Timestamp) : Exn :=
RepositoryError
  (ApplicationError.__init__
     ("Repository at maximum capacity: " +:+ pretty (_max_users self))
     "CAPACITY_EXCEEDED"
     (Some [("current_count", VInt (len (_users self)));
            ("max_capacity", VInt (_max_users self))])
     now).

Definition invalid_user_error (e : Exn) (u : User.t) (now : Timestamp) : Exn :=
ValidationError
  (ApplicationError.__init__
     ("Invalid user data: " +:+ Exn_str e)
     "INVALID_USER_DATA"
     (Some [("user_data", VDict (User.to_dict u))])
     now).

(** [save(user)].  The temporary [User] built from [user.to_dict()] carries the same
    [email] and [age] as [user], the only fields [__post_init__] reads, and
    every keyword it receives is a field, so no [TypeError] arises: the
    validation is [__post_init__] on the object as it stands after the
    identifier assignment. *)
Definition save (self : t) (h : Heap) (user : loc) (now : Timestamp)
  : Result UserId (t * Heap) :=
match h !! user with
| None => Wrong
| Some u =>
    if (_max_users self <=? len (_users self))
       && negb (dict_in (User.id u) (_users self))
    then Raise (capacity_error self now) (self, h)
    else
      let fresh := (User.id u =? 0) || negb (dict_in (User.id u) (_users self)) in
      let u1 := if fresh then User.set_id (_next_id self) u else u in
      let h1 := if fresh then <[user := u1]> h else h in
      let self1 := if fresh then set_next_id (_next_id self + 1) self else self in
      match User.__post_init__ u1 with
      | Some e => Raise (invalid_user_error e u1 now) (self1, h1)
      | None =>
          Return (User.id u1)
                 (set_users (dict_set (User.id u1) user (_users self1)) self1, h1)
      end
end.

Definition find_by_id (self : t) (user_id : UserId) : option loc :=
dict_get user_id (_users self).

(** [list(self._users.values())]: a new list of the stored references. *)
Definition find_all (self : t) : list loc :=
dict_values (_users self).

Definition delete (self : t) (user_id : UserId) : bool * t :=
if dict_in user_id (_users self)
then (true, set_users (dict_del user_id (_users self)) self)
else (false, self).

(** The accumulators of the loop of [get_statistics]. *)
Record acc := mk_acc {
  status_counts : list (string * Z);
  adult_count : Z;
  total_age : Z;
  age_count : Z
}.

Definition acc0 : acc := mk_acc [] 0 0 0.

(** [status_counts[key] += 1] on a [defaultdict(int)]. *)
Definition bump (key : string) (d : list (string * Z)) : list (string * Z) :=
dict_set key (default 0 (dict_get key d) + 1) d.

Definition loop_body (a : acc) (user : User.t) : acc :=
let sc := bump (UserStatus.name (User.status user)) (status_counts a) in
let ad := if User.is_adult user then adult_count a + 1 else adult_count a in
match User.age user with
| Some n => mk_acc sc ad (total_age a + n) (age_count a + 1)
| None => mk_acc sc ad (total_age a) (age_count a)
end.

Definition counts_dict (d : list (string * Z)) : PyVal :=
VDict (map (fun kv => (fst kv, VInt (snd kv))) d).

(** [total_age / age_count if age_count > 0 else 0] *)
Definition average_age (a : acc) : Exn + PyVal :=
if 0 <? age_count a then
  match truediv (total_age a) (age_count a) with
  | inl e => inl e
  | inr f => inr (VFloat f)
  end
else inr (VInt 0).

(** The entries of the returned dictionary are evaluated in the order
    written: the division for [average_age] comes before the one for
    [capacity_utilization], and either can raise. *)
Definition get_statistics (self : t) (h : Heap) (now : Timestamp)
  : Result Stats unit :=
match deref_all h (dict_values (_users self)) with
| None => Wrong
| Some users =>
    let a := fold_left loop_body users acc0 in
    let n := len (_users self) in
    match average_age a with
    | inl e => Raise e tt
    | inr average =>
        match truediv n (_max_users self) with
        | inl e => Raise e tt
        | inr utilization =>
            Return
              [("total_users", VInt n);
               ("status_distribution", counts_dict (status_counts a));
               ("adult_users", VInt (adult_count a));
               ("minor_users", VInt (n - adult_count a));
               ("average_age", average);
               ("repository_capacity", VInt (_max_users self));
               ("capacity_utilization", VFloat utilization);
               ("repository_age_seconds",
                 VFloat (now - _created_at self)%float);
               ("next_available_id", VInt (_next_id self))]
              tt
        end
    end
end.
End InMemoryUserRepository.

(** ** The [Repository] and [Logger] protocols *)

Module Repository.
(** The four methods of the protocol, and what [hasattr(r, 'get_statistics')]
    finds: [None] when the implementation has no such method. *)
Class t (R : Type) := {
  save : R -> Heap -> loc -> Timestamp -> Result UserId (R * Heap);
  find_by_id : R -> UserId -> option loc;
  find_all : R -> list loc;
  delete : R -> UserId -> bool * R;
  get_statistics : option (R -> Heap -> Timestamp -> Result Stats unit)
}.
End Repository.

Module Logger.
(** [log(level, message, **kwargs)], at clock reading [now]. *)
Class t (L : Type) := {
  log : L -> LogLevel.t -> string -> list (string * PyVal) -> Timestamp -> L
}.
End Logger.

#[global] Instance InMemoryUserRepository_Repository
  : Repository.t InMemoryUserRepository.t := {|
  Repository.save := InMemoryUserRepository.save;
  Repository.find_by_id := InMemoryUserRepository.find_by_id;
  Repository.find_all := InMemoryUserRepository.find_all;
  Repository.delete := InMemoryUserRepository.delete;
  Repository.get_statistics := Some InMemoryUserRepository.get_statistics
|}.

(** ** [StructuredLogger] *)

Module StructuredLogger.
(** One printed line: the [log_entry] dictionary before [json.dumps]. *)
Record entry := mk_entry {
  entry_timestamp : Timestamp;
  entry_level : string;
  entry_message : string;
  entry_context : list (string * PyVal)
}.

(** The logger and the lines it has printed to standard output. *)
Record t := mk {
  _min_level : LogLevel.t;
  stdout : list entry
}.

Definition __init__ (min_level : LogLevel.t) : t := mk min_level [].

Definition _level_priorities (l : LogLevel.t) : Z :=
match l with
| LogLevel.DEBUG => 0
| LogLevel.INFO => 1
| LogLevel.WARNING => 2
| LogLevel.ERROR => 3
| LogLevel.CRITICAL => 4
end.

Definition log (self : t) (level : LogLevel.t) (message : string)
    (kwargs : list (string * PyVal)) (now : Timestamp) : t :=
if _level_priorities level <? _level_priorities (_min_level self) then self
else mk (_min_level self)
        (stdout self ++ [mk_entry now (LogLevel.value level) message kwargs]).
End StructuredLogger.

#[global] Instance StructuredLogger_Logger : Logger.t StructuredLogger.t := {|
  Logger.log := StructuredLogger.log
|}.

(** ** [UserService] *)

Module UserService.
Section Service.
Context {R L : Type} `{Repository.t R} `{Logger.t L}.

Record t := mk {
  _repository : R;
  _logger : L;
  _service_started : Timestamp
}.

Definition set_repository (v : R) (self : t) : t :=
mk v (_logger self) (_service_started self).

Definition set_logger (v : L) (self : t) : t :=
mk (_repository self) v (_service_started self).

Definition __init__ (repository : R) (logger : L) (now : Timestamp) : t :=
mk repository
   (Logger.log logger LogLevel.INFO "UserService initialized"
      [("service_start_time", VFloat now)] now)
   now.

(** The scan of [create_user_async]: the first user, in the order of
    [find_all], whose lower-cased email equals the lower-cased request.
    The outer [None] is a reference that names no object. *)
Fixpoint first_duplicate (h : Heap) (email : string) (existing_users : list loc)
  : option (option User.t) :=
match existing_users with
| [] => Some None
| l :: rest =>
    match h !! l with
    | None => None
    | Some existing_user =>
        if String.eqb (lower (User.email existing_user)) (lower email)
        then Some (Some existing_user)
        else first_duplicate h email rest
    end
end.

Definition duplicate_email_error (email : string) (existing_user : User.t)
    (now : Timestamp) : Exn :=
ValidationError
  (ApplicationError.__init__
     ("User with email " +:+ email +:+ " already exists")
     "DUPLICATE_EMAIL"
     (Some [("email", VStr email);
            ("existing_user_id", VInt (User.id existing_user))])
     now).

(** [create_user_async(name, email, age)] run to completion with no other
    task scheduled during [await asyncio.sleep(0.1)]; [now] is the clock
    reading of the call. *)
Definition create_user_async (self : t) (h : Heap) (name email : string)
    (age : option Z) (now : Timestamp) : Result loc (t * Heap) :=
let self1 :=
  set_logger
    (Logger.log (_logger self) LogLevel.INFO "Creating new user"
       [("name", VStr name); ("email", VStr email);
        ("age", User.opt_int age)] now) self in
match first_duplicate h email (Repository.find_all (_repository self1)) with
| None => Wrong
| Some (Some existing_user) =>
    Raise (duplicate_email_error email existing_user now) (self1, h)
| Some None =>
    match User.__init__ 0 name email age UserStatus.ACTIVE
            UserPreferences.default now [] with
    | inl e => Raise e (self1, h)
    | inr u =>
        let '(user, h1) := alloc h u in
        match Repository.save (_repository self1) h1 user now with
        | Wrong => Wrong
        | Return user_id (repo2, h2) =>
            let h3 := alter (User.set_id user_id) user h2 in
            let lg :=
              Logger.log (_logger self1) LogLevel.INFO
                "User created successfully"
                [("user_id", VInt user_id); ("name", VStr name);
                 ("email", VStr email)] now in
            Return user (set_logger lg (set_repository repo2 self1), h3)
        | Raise e (repo2, h2) =>
            let lg :=
              Logger.log (_logger self1) LogLevel.ERROR
                "Failed to create user"
                [("error", VStr (Exn_str e)); ("name", VStr name);
                 ("email", VStr email)] now in
            Raise e (set_logger lg (set_repository repo2 self1), h2)
        end
    end
end.

(** The accumulators and loop of [_calculate_basic_statistics]. *)
Record acc := mk_acc {
  status_counts : list (string * Z);
  adult_count : Z;
  total_age : Z;
  age_count : Z
}.

Definition loop_body (a : acc) (user : User.t) : acc :=
let sc :=
  dict_set (UserStatus.name (User.status user))
    (default 0 (dict_get (UserStatus.name (User.status user))
                  (status_counts a)) + 1)
    (status_counts a) in
let ad := if User.is_adult user then adult_count a + 1 else adult_count a in
match User.age user with
| Some n => mk_acc sc ad (total_age a + n) (age_count a + 1)
| None => mk_acc sc ad (total_age a) (age_count a)
end.

(** [_calculate_basic_statistics(users)]; the division for [average_age]
    can raise [OverflowError]. *)
Definition _calculate_basic_statistics (users : list User.t) : Exn + Stats :=
match users with
| [] =>
    inr [("total_users", VInt 0);
         ("status_distribution", VDict []);
         ("adult_users", VInt 0);
         ("minor_users", VInt 0);
         ("average_age", VInt 0)]
| _ =>
    let a := fold_left loop_body users (mk_acc [] 0 0 0) in
    let average : Exn + PyVal :=
      if 0 <? age_count a then
        match truediv (total_age a) (age_count a) with
        | inl e => inl e
        | inr f => inr (VFloat f)
        end
      else inr (VInt 0) in
    match average with
    | inl e => inl e
    | inr average_age =>
        inr [("total_users", VInt (len users));
             ("status_distribution",
               VDict (map (fun kv => (fst kv, VInt (snd kv)))
                          (status_counts a)));
             ("adult_users", VInt (adult_count a));
             ("minor_users", VInt (len users - adult_count a));
             ("average_age", average_age)]
    end
end.

(** [get_user_statistics()]: the repository's own statistics when it has
    the method, the local reduction over [find_all()] otherwise; then the
    uptime entry is stored into the dictionary obtained. *)
Definition get_user_statistics (self : t) (h : Heap) (now : Timestamp)
  : Result Stats t :=
let self1 :=
  set_logger
    (Logger.log (_logger self) LogLevel.DEBUG "Generating user statistics"
       [] now) self in
let obtained : Result Stats unit :=
  match Repository.get_statistics with
  | Some get_statistics => get_statistics (_repository self1) h now
  | None =>
      match deref_all h (Repository.find_all (_repository self1)) with
      | None => Wrong
      | Some users =>
          match _calculate_basic_statistics users with
          | inl e => Raise e tt
          | inr stats => Return stats tt
          end
      end
  end in
match obtained with
| Wrong => Wrong
| Raise e _ => Raise e self1
| Return stats _ =>
    let stats1 :=
      dict_set "service_uptime_seconds"
        (VFloat (now - _service_started self1)%float) stats in
    let lg :=
      Logger.log (_logger self1) LogLevel.INFO "User statistics generated"
        [("total_users", default (VInt 0) (dict_get "total_users" stats1))]
        now in
    Return stats1 (set_logger lg self1)
end.
End Service.
End UserService.
Arguments UserService.t : clear implicits.

(** ** The sample class trio of [foobar.py] *)

Module ProcessingConstants.
Definition FOO_ACTION_RESULT : string := "Foo did something successfully".
Definition BAR_ACTION_RESULT : string := "Bar performed its action".
Definition BAZ_ACTION_RESULT : string := "Baz executed its method".
End ProcessingConstants.

Module Foo.
(** An instance has no attribute: [__init__] is [pass]. *)
Inductive t := instance.
Definition __init__ : t := instance.
Definition do_something (self : t) : string :=
ProcessingConstants.FOO_ACTION_RESULT.
End Foo.

Module Bar.
Inductive t := instance.
Definition __init__ : t := instance.
Definition do_something (self : t) : string :=
ProcessingConstants.BAR_ACTION_RESULT.
End Bar.

Module Baz.
Inductive t := instance.
Definition __init__ : t := instance.
Definition do_something (self : t) : string :=
ProcessingConstants.BAZ_ACTION_RESULT.
End Baz.

(** ** Sequences of repository operations

    A world is one repository together with the object store its users live
    in.  Besides the five public methods, client code can construct a [User]
    and can assign to the fields of a [User] it holds a reference to (the
    dataclass is not frozen), so both are operations of a run as well. *)

Record World := mkWorld {
  heap : Heap;
  repo : InMemoryUserRepository.t
}.

Inductive Op : Type :=
| Save (user : loc) (now : Timestamp)
| FindById (user_id : UserId)
| FindAll
| Delete (user_id : UserId)
| GetStatistics (now : Timestamp)
| NewUser (fields : User.t)
| Assign (user : loc) (fields : User.t).

Definition init (max_users : Z) (now : Timestamp) : World :=
mkWorld [] (InMemoryUserRepository.__init__ max_users now).

Definition step (w : World) (op : Op) : World :=
match op with
| Save user now =>
    match InMemoryUserRepository.save (repo w) (heap w) user now with
    | Return _ (r, h) => mkWorld h r
    | Raise _ (r, h) => mkWorld h r
    | Wrong => w
    end
| FindById _ | FindAll | GetStatistics _ => w
| Delete user_id =>
    mkWorld (heap w) (snd (InMemoryUserRepository.delete (repo w) user_id))
| NewUser f =>
    match User.__init__ (User.id f) (User.name f) (User.email f) (User.age f)
            (User.status f) (User.preferences f) (User.created_at f)
            (User.metadata f) with
    | inr u => mkWorld (snd (alloc (heap w) u)) (repo w)
    | inl _ => w
    end
| Assign user u => mkWorld (<[user := u]> (heap w)) (repo w)
end.

Definition run (ops : list Op) (w : World) : World := fold_left step ops w.

(** The identifiers under which the repository stores a user. *)
Definition keys (w : World) : list UserId :=
dict_keys (InMemoryUserRepository._users (repo w)).

Definition next_id (w : World) : UserId :=
InMemoryUserRepository._next_id (repo w).

(** The identifier a step takes from the counter, if it takes one: the
    counter's value before a [save] that advances it. *)
Definition issued_by (w : World) (op : Op) : option UserId :=
match op with
| Save _ _ => if next_id (step w op) =? next_id w then None else Some (next_id w)
| _ => None
end.

(** The identifiers taken from the counter along a run, oldest first. *)
Fixpoint issued (ops : list Op) (w : World) : list UserId :=
match ops with
| [] => []
| op :: ops' =>
    match issued_by w op with
    | Some k => k :: issued ops' (step w op)
    | None => issued ops' (step w op)
    end
end.

(** Whether, at the end of a run, identifier [k] has been returned by a
    [save] and not been the argument of a later [delete]. *)
Fixpoint saved_not_deleted (k : UserId) (ops : list Op) (w : World) (live : bool)
  : bool :=
match ops with
| [] => live
| op :: ops' =>
    let live' :=
      match op with
      | Save user now =>
          match InMemoryUserRepository.save (repo w) (heap w) user now with
          | Return k' _ => if k' =? k then true else live
          | _ => live
          end
      | Delete k' => if k' =? k then false else live
      | _ => live
      end in
    saved_not_deleted k ops' (step w op) live'
end.

(** ** Notions of the specification *)

(** "the string contains the character" *)
Definition contains_char (c : ascii) (s : string) : Prop :=
In c (list_ascii_of_string s).

(** "the email contains '@' and '.' and is longer than 5 characters, and the
    age is absent or non-negative" *)
Definition valid_user_data (email : string) (age : option Z) : Prop :=
contains_char "@" email /\ contains_char "." email
/\ (5 < String.length email)%nat
/\ match age with Some a => 0 <= a | None => True end.

(** ASCII case folding: only A..Z change. *)
Definition ascii_fold (c : ascii) : ascii :=
let n := N_of_ascii c in
if ((65 <=? n) && (n <=? 90))%N then ascii_of_N (n + 32) else c.

(** "equal up to ASCII case" *)
Definition eq_up_to_ascii_case (s t : string) : Prop :=
map ascii_fold (list_ascii_of_string s) = map ascii_fold (list_ascii_of_string t).

(** Every stored reference names an object. *)
Definition refs_valid (h : Heap) (r : InMemoryUserRepository.t) : Prop :=
Forall (fun l => (l < length h)%nat) (InMemoryUserRepository.find_all r).

(** "adult: age known and at least 18" and the ages that are known. *)
Definition adult (u : User.t) : Prop :=
exists a, User.age u = Some a /\ 18 <= a.

Definition known_ages (users : list User.t) : list Z :=
omap User.age users.

Definition sumZ (l : list Z) : Z := fold_right Z.add 0 l.

(** The five fields the repository statistics and the local reduction share. *)
Definition shared_fields : list string :=
["total_users"; "status_distribution"; "adult_users"; "minor_users";
 "average_age"].

(** "the quotient of the two integers is within the range of a float": for a
    divisor that is not zero, [int / int] has a result exactly then. *)
Definition float_range (a b : Z) : Prop :=
Z.abs a < binary64_overflow * Z.abs b.

(** "the mean age over users with known age, 0 when none": the integer 0, or
    the float nearest to the sum of the known ages over their number. *)
Definition mean_age (ages : list Z) : Exn + PyVal :=
match ages with
| [] => inr (VInt 0)
| _ =>
    match truediv (sumZ ages) (len ages) with
    | inl e => inl e
    | inr f => inr (VFloat f)
    end
end.

(** [float(n)], exact for an integer of at most 53 bits. *)
Definition float_of_int (n : Z) : float :=
if n <? 0 then (- of_uint63 (Uint63.of_Z (- n)))%float
else of_uint63 (Uint63.of_Z n).

(** The mean of the known ages is within the range of a float. *)
Definition mean_age_in_range (users : list User.t) : Prop :=
known_ages users = []
\/ float_range (sumZ (known_ages users)) (len (known_ages users)).

(** The condition under which both divisions of [get_statistics] have a
    result. *)
Definition statistics_defined (self : InMemoryUserRepository.t)
    (users : list User.t) : Prop :=
mean_age_in_range users
/\ InMemoryUserRepository._max_users self <> 0
/\ float_range (len users) (InMemoryUserRepository._max_users self).

(** The identifier a step stores for the first time, if it stores one: the
    value a [save] returns when it was not a key before the call. *)
Definition stored_by (w : World) (op : Op) : option UserId :=
match op with
| Save user now =>
    match InMemoryUserRepository.save (repo w) (heap w) user now with
    | Return k _ =>
        if dict_in k (InMemoryUserRepository._users (repo w)) then None
        else Some k
    | _ => None
    end
| _ => None
end.

(** The identifiers stored along a run, in the order in which each was first
    stored. *)
Fixpoint stored (ops : list Op) (w : World) : list UserId :=
match ops with
| [] => []
| op :: ops' =>
    match stored_by w op with
    | Some k => k :: stored ops' (step w op)
    | None => stored ops' (step w op)
    end
end.

(** ** Case analysis of [save] *)

Import InMemoryUserRepository.

(** Whether [save] would take an identifier from the counter. *)
Definition takes_fresh_id (self : t) (u : User.t) : bool :=
(User.id u =? 0) || negb (dict_in (User.id u) (_users self)).

(** Whether [save] is rejected by the capacity check. *)
Definition at_capacity_and_absent (self : t) (u : User.t) : bool :=
(_max_users self <=? len (_users self)) && negb (dict_in (User.id u) (_users self)).

(** The state a call leaves behind. *)
Definition state_of {A S} (r : Result A S) : option S :=
match r with
| Return _ s => Some s
| Raise _ s => Some s
| Wrong => None
end.

(** The possible states after [save]: untouched, counter advanced only, key
    overwritten, or counter advanced and a new key stored. *)
Inductive save_post (self : t) (h : Heap) (user : loc) (u : User.t)
  : t * Heap -> Prop :=
| post_same : save_post self h user u (self, h)
| post_consumed :
    takes_fresh_id self u = true ->
    at_capacity_and_absent self u = false ->
    save_post self h user u
      (set_next_id (_next_id self + 1) self,
       <[user := User.set_id (_next_id self) u]> h)
| post_overwritten :
    takes_fresh_id self u = false ->
    save_post self h user u
      (set_users (dict_set (User.id u) user (_users self)) self, h)
| post_stored :
    takes_fresh_id self u = true ->
    at_capacity_and_absent self u = false ->
    save_post self h user u
      (set_users (dict_set (_next_id self) user (_users self))
         (set_next_id (_next_id self + 1) self),
       <[user := User.set_id (_next_id self) u]> h).

(** ** The invariant of a repository built by [__init__] and driven through
    its methods *)

Record Inv (w : World) : Prop := mkInv {
  inv_nodup : List.NoDup (keys w);
  inv_keys : Forall (fun k => 1 <= k < next_id w) (keys w);
  inv_next : 1 <= next_id w;
  inv_refs : refs_valid (heap w) (repo w);
  inv_capacity : len (_users (repo w)) <= Z.max 0 (_max_users (repo w))
}.

(** The user the scan stops at: the first of the list whose lower-cased email
    equals the lower-cased request. *)
Definition first_match (h : Heap) (email : string) (ls : list loc)
    (i : nat) (l : loc) (u : User.t) : Prop :=
ls !! i = Some l /\ h !! l = Some u
/\ lower (User.email u) = lower email
/\ forall j lj uj, (j < i)%nat -> ls !! j = Some lj -> h !! lj = Some uj ->
     lower (User.email uj) <> lower email.

(** The number of users whose status has the given name. *)
Definition count_status (key : string) (users : list User.t) : Z :=
len (List.filter (fun u => String.eqb (UserStatus.name (User.status u)) key) users).

(** The accumulators of the two statistics loops hold the same values. *)
Definition acc_sim (a : InMemoryUserRepository.acc) (b : UserService.acc) : Prop :=
status_counts a = UserService.status_counts b
/\ adult_count a = UserService.adult_count b
/\ total_age a = UserService.total_age b
/\ age_count a = UserService.age_count b.


(** A repository seen through the [Repository] protocol alone: the four
    methods of [InMemoryUserRepository] and no [get_statistics]. *)
Definition protocol_only : Repository.t InMemoryUserRepository.t := {|
  Repository.save := InMemoryUserRepository.save;
  Repository.find_by_id := InMemoryUserRepository.find_by_id;
  Repository.find_all := InMemoryUserRepository.find_all;
  Repository.delete := InMemoryUserRepository.delete;
  Repository.get_statistics := None
|}.

(** ** Sample data *)

Definition alice : User.t :=
User.mk 0 "Alice" "a@b.com" None UserStatus.PENDING UserPreferences.default
  0%float [].

Definition bob : User.t :=
User.mk 0 "Bob" "bob@example.com" (Some 16) UserStatus.PENDING
  UserPreferences.default 0%float [].

(** A user whose age, accepted by [__post_init__], is beyond every float. *)
Definition methuselah : User.t :=
User.mk 0 "M" "m@b.com" (Some (10 ^ 400)) UserStatus.PENDING
  UserPreferences.default 0%float [].

(** A repository of capacity 1 holding [alice] under identifier 1, after
    which the client assigns ["bad"] to the [email] field of that object. *)
Definition full_with_defaced_user : World :=
run [NewUser alice; Save 0%nat 0%float;
     Assign 0%nat
       (User.mk 1 "Alice" "bad" None UserStatus.PENDING
          UserPreferences.default 0%float [])]
    (init 1 0%float).

(** ** The two halves of [create_user_async]

    The coroutine has one suspension point, [await asyncio.sleep(0.1)],
    between the first log call and the duplicate scan.  On an event loop a
    task runs without interruption from one suspension point to the next, so
    concurrent calls interleave as whole halves. *)

Section Halves.
Context {R L : Type} `{Repository.t R} `{Logger.t L}.

(** From the call to the [await]: the log call. *)
Definition create_user_async_before_await (self : UserService.t R L)
    (name email : string) (age : option Z) (now : Timestamp)
  : UserService.t R L :=
UserService.set_logger
  (Logger.log (UserService._logger self) LogLevel.INFO "Creating new user"
     [("name", VStr name); ("email", VStr email);
      ("age", User.opt_int age)] now) self.

(** From the [await] to the end: scan, construction, [save], logging. *)
Definition create_user_async_after_await (self1 : UserService.t R L) (h : Heap)
    (name email : string) (age : option Z) (now : Timestamp)
  : Result loc (UserService.t R L * Heap) :=
match UserService.first_duplicate h email
        (Repository.find_all (UserService._repository self1)) with
| None => Wrong
| Some (Some existing_user) =>
    Raise (UserService.duplicate_email_error email existing_user now) (self1, h)
| Some None =>
    match User.__init__ 0 name email age UserStatus.ACTIVE
            UserPreferences.default now [] with
    | inl e => Raise e (self1, h)
    | inr u =>
        let '(user, h1) := alloc h u in
        match Repository.save (UserService._repository self1) h1 user now with
        | Wrong => Wrong
        | Return user_id (repo2, h2) =>
            let h3 := alter (User.set_id user_id) user h2 in
            let lg :=
              Logger.log (UserService._logger self1) LogLevel.INFO
                "User created successfully"
                [("user_id", VInt user_id); ("name", VStr name);
                 ("email", VStr email)] now in
            Return user
              (UserService.set_logger lg
                 (UserService.set_repository repo2 self1), h3)
        | Raise e (repo2, h2) =>
            let lg :=
              Logger.log (UserService._logger self1) LogLevel.ERROR
                "Failed to create user"
                [("error", VStr (Exn_str e)); ("name", VStr name);
                 ("email", VStr email)] now in
            Raise e
              (UserService.set_logger lg
                 (UserService.set_repository repo2 self1), h2)
        end
    end
end.

(** One turn of the event loop on the shared service and object store: a
    call runs up to its [await], or a suspended call runs to its end. *)
Inductive Turn : Type :=
| Begin (name email : string) (age : option Z) (now : Timestamp)
| Resume (name email : string) (age : option Z) (now : Timestamp).

Definition turn (st : UserService.t R L * Heap) (t : Turn)
  : UserService.t R L * Heap :=
match t with
| Begin name email age now =>
    (create_user_async_before_await (fst st) name email age now, snd st)
| Resume name email age now =>
    match create_user_async_after_await (fst st) (snd st) name email age now with
    | Return _ s => s
    | Raise _ s => s
    | Wrong => st
    end
end.

Definition schedule (turns : list Turn) (st : UserService.t R L * Heap)
  : UserService.t R L * Heap :=
fold_left turn turns st.
End Halves.

(** The lower-cased emails of the stored users are pairwise different. *)
Definition emails_unique (h : Heap) (r : InMemoryUserRepository.t) : Prop :=
exists users,
  deref_all h (find_all r) = Some users
  /\ List.NoDup (map (fun u => lower (User.email u)) users).

(** Every stored object carries the identifier it is stored under. *)
Definition ids_match (h : Heap) (r : InMemoryUserRepository.t) : Prop :=
forall k l, In (k, l) (_users r) -> exists u, h !! l = Some u /\ User.id u = k.

(** ** Utility functions *)

(** What the utility functions can raise: an exception of [Exn], or the
    [IndexError] of a list subscript out of range. *)
Inductive UtilExn : Type :=
| Known (e : Exn)
| IndexError (msg : string).

(** [l[i]]: a negative index counts from the end of the list. *)
Definition subscript (l : list Z) (i : Z) : UtilExn + Z :=
let j := if i <? 0 then i + len l else i in
if (j <? 0) || (len l <=? j) then inl (IndexError "list index out of range")
else
  match l !! Z.to_nat j with
  | Some x => inr x
  | None => inl (IndexError "list index out of range")
  end.

(** [range(a, b)] *)
Definition py_range (a b : Z) : list Z :=
map (fun k => a + Z.of_nat k) (seq 0 (Z.to_nat (b - a))).

(** The [for] loop of [fibonacci_generator] over the indices still to come. *)
Fixpoint fibonacci_loop (indices : list Z) (sequence : list Z)
  : UtilExn + list Z :=
match indices with
| [] => inr sequence
| i :: rest =>
    match subscript sequence (i - 1) with
    | inl e => inl e
    | inr a =>
        match subscript sequence (i - 2) with
        | inl e => inl e
        | inr b => fibonacci_loop rest (sequence ++ [a + b])
        end
    end
end.

Definition fibonacci_generator (n : Z) : UtilExn + list Z :=
if n <? 0 then
  inl (Known (ValueError
    ("Cannot generate Fibonacci sequence for negative count: " +:+ pretty n)))
else if n =? 0 then inr []
else if n =? 1 then inr [0]
else fibonacci_loop (py_range 2 n) [0; 1].

(** The Fibonacci numbers: F(0) = 0, F(1) = 1, F(k+2) = F(k+1) + F(k). *)
Fixpoint fib (k : nat) : Z :=
match k with
| O => 0
| S k' =>
    match k' with
    | O => 1
    | S k'' => fib k' + fib k''
    end
end.

(** * Properties *)

(** ** Strings *)

Lemma str_contains_spec (c : ascii) (s : string) :
  str_contains c s = true <-> contains_char c s.
Proof.
  unfold contains_char. induction s as [|c' s IH]; simpl.
  - split; [discriminate | tauto].
  - destruct (Ascii.eqb c c') eqn:E.
    + apply Ascii.eqb_eq in E. subst. tauto.
    + apply Ascii.eqb_neq in E. rewrite IH. split; [tauto|].
      intros [->|?]; [congruence | assumption].
Qed.

Lemma _is_valid_email_spec (email : string) :
  User._is_valid_email email = true <->
  contains_char "@" email /\ contains_char "." email
  /\ (5 < String.length email)%nat.
Proof.
  unfold User._is_valid_email.
  rewrite !andb_true_iff, !str_contains_spec, Z.ltb_lt. intuition lia.
Qed.

Lemma post_init_None (u : User.t) :
  User.__post_init__ u = None <-> valid_user_data (User.email u) (User.age u).
Proof.
  unfold User.__post_init__, valid_user_data.
  destruct (User._is_valid_email (User.email u)) eqn:E; simpl.
  - apply _is_valid_email_spec in E. destruct E as (E1 & E2 & E3).
    destruct (User.age u) as [a|]; [|tauto].
    destruct (Z.ltb_spec a 0).
    + split; [discriminate|]. intros (_ & _ & _ & ?). lia.
    + split; [|reflexivity]. intros _. repeat split; trivial.
  - split; [discriminate|]. intros (E1 & E2 & E3 & _).
    assert (User._is_valid_email (User.email u) = true) as E'
      by (apply _is_valid_email_spec; tauto).
    congruence.
Qed.

Lemma post_init_ValueError (u : User.t) (e : Exn) :
  User.__post_init__ u = Some e -> exists msg, e = ValueError msg.
Proof.
  unfold User.__post_init__.
  destruct (negb _); [intros [= <-]; eauto|].
  destruct (User.age u) as [a|]; [|discriminate].
  destruct (a <? 0); [intros [= <-]; eauto | discriminate].
Qed.

(** C2. For every name, email, optional age, status, preferences, timestamp
    and metadata, constructing a [User] succeeds (and yields the object with
    exactly those fields) if and only if the email contains '@' and '.' and
    has more than 5 characters and the age is absent or non-negative; in
    every other case the construction raises a [ValueError]. *)
Theorem User_construction_succeeds_iff_valid
    (id : UserId) (name email : string) (age : option Z)
    (status : UserStatus.t) (preferences : UserPreferences.t)
    (created_at : Timestamp) (metadata : ConfigDict) :
  (User.__init__ id name email age status preferences created_at metadata
     = inr (User.mk id name email age status preferences created_at metadata)
   <-> valid_user_data email age)
  /\ (~ valid_user_data email age <->
      exists msg,
        User.__init__ id name email age status preferences created_at metadata
          = inl (ValueError msg)).
Proof.
  unfold User.__init__.
  set (u := User.mk id name email age status preferences created_at metadata).
  pose proof (post_init_None u) as Hn. simpl in Hn.
  destruct (User.__post_init__ u) as [e|] eqn:E.
  - destruct (post_init_ValueError u e E) as [msg ->].
    assert (~ valid_user_data email age) as Hv
      by (intros Hv; apply Hn in Hv; discriminate).
    split; split; try tauto; try discriminate. eauto.
  - assert (valid_user_data email age) as Hv by (apply Hn; reflexivity).
    split; split; try tauto. intros [msg [=]].
Qed.

(** ** The sample class trio *)

(** C9. [Foo().do_something()], [Bar().do_something()] and
    [Baz().do_something()] return exactly the three fixed strings. *)
Theorem trio_do_something :
  Foo.do_something Foo.__init__ = "Foo did something successfully"
  /\ Bar.do_something Bar.__init__ = "Bar performed its action"
  /\ Baz.do_something Baz.__init__ = "Baz executed its method"
  /\ (forall foo bar baz,
        Foo.do_something foo = "Foo did something successfully"
        /\ Bar.do_something bar = "Bar performed its action"
        /\ Baz.do_something baz = "Baz executed its method").
Proof. repeat split. Qed.

(** ** Dictionaries *)

Section PyDictFacts.
Context {K V : Type} `{EqDecision K}.
Implicit Types (k : K) (v : V) (d : list (K * V)).

Lemma dict_in_keys k d : dict_in k d = true <-> In k (dict_keys d).
Proof.
  unfold dict_in. induction d as [|[k' v'] d IH]; simpl.
  - split; [discriminate | tauto].
  - destruct (decide (k = k')) as [->|Hne]; [tauto|].
    rewrite IH. split; [tauto|]. intros [?|?]; [congruence | assumption].
Qed.

Lemma dict_in_false_keys k d : dict_in k d = false <-> ~ In k (dict_keys d).
Proof.
  rewrite <- dict_in_keys. destruct (dict_in k d); split; congruence.
Qed.

Lemma dict_get_Some_in k v d : dict_get k d = Some v -> In (k, v) d.
Proof.
  induction d as [|[k' v'] d IH]; simpl; [discriminate|].
  destruct (decide (k = k')) as [->|Hne]; [intros [= ->]; tauto | auto].
Qed.

Lemma dict_get_set_eq k v d : dict_get k (dict_set k v d) = Some v.
Proof.
  induction d as [|[k' v'] d IH]; simpl.
  - destruct (decide (k = k)); congruence.
  - destruct (decide (k = k')) as [->|Hne]; simpl.
    + destruct (decide (k' = k')); congruence.
    + destruct (decide (k = k')); congruence.
Qed.

Lemma dict_get_set_ne k k' v d :
  k' <> k -> dict_get k' (dict_set k v d) = dict_get k' d.
Proof.
  intros Hne. induction d as [|[k2 v2] d IH]; simpl.
  - destruct (decide (k' = k)); congruence.
  - destruct (decide (k = k2)) as [->|Hne2]; simpl.
    + destruct (decide (k' = k2)); congruence.
    + destruct (decide (k' = k2)); congruence.
Qed.

Lemma dict_keys_set k v d :
  dict_keys (dict_set k v d)
  = if dict_in k d then dict_keys d else dict_keys d ++ [k].
Proof.
  unfold dict_in, dict_keys. induction d as [|[k' v'] d IH]; simpl; [reflexivity|].
  destruct (decide (k = k')) as [->|Hne]; simpl; [reflexivity|].
  rewrite IH. destruct (dict_get k d); reflexivity.
Qed.

Lemma dict_set_length k v d :
  length (dict_set k v d) = if dict_in k d then length d else S (length d).
Proof.
  pose proof (f_equal (@length K) (dict_keys_set k v d)) as E.
  unfold dict_keys in E. rewrite length_map in E. rewrite E.
  destruct (dict_in k d); rewrite ?length_app, !length_map; simpl; lia.
Qed.

Lemma dict_values_set_incl k v d l :
  In l (dict_values (dict_set k v d)) -> l = v \/ In l (dict_values d).
Proof.
  unfold dict_values. induction d as [|[k' v'] d IH]; simpl.
  - intros [<-|[]]. now left.
  - destruct (decide (k = k')) as [->|Hne]; simpl.
    + intros [<-|?]; [now left | right; now right].
    + intros [<-|Hin]; [right; now left |].
      destruct (IH Hin); [now left | right; now right].
Qed.

Lemma dict_del_absent k d : dict_in k d = false -> dict_del k d = d.
Proof.
  unfold dict_in. induction d as [|[k' v'] d IH]; simpl; [reflexivity|].
  destruct (decide (k = k')); [discriminate|]. intros E. f_equal. auto.
Qed.

Lemma dict_keys_del_incl k k' d :
  In k' (dict_keys (dict_del k d)) -> In k' (dict_keys d).
Proof.
  unfold dict_keys. induction d as [|[k2 v2] d IH]; simpl; [tauto|].
  destruct (decide (k = k2)); simpl; tauto.
Qed.

Lemma dict_values_del_incl k l d :
  In l (dict_values (dict_del k d)) -> In l (dict_values d).
Proof.
  unfold dict_values. induction d as [|[k2 v2] d IH]; simpl; [tauto|].
  destruct (decide (k = k2)); simpl; tauto.
Qed.

Lemma dict_keys_del_other k k' d :
  k' <> k -> In k' (dict_keys d) -> In k' (dict_keys (dict_del k d)).
Proof.
  unfold dict_keys. intros Hne. induction d as [|[k2 v2] d IH]; simpl; [tauto|].
  destruct (decide (k = k2)) as [->|?]; simpl.
  - intros [?|?]; [congruence | assumption].
  - intros [?|?]; [now left | right; auto].
Qed.

Lemma dict_del_NoDup k d :
  List.NoDup (dict_keys d) -> List.NoDup (dict_keys (dict_del k d)).
Proof.
  unfold dict_keys. induction d as [|[k2 v2] d IH]; simpl; [trivial|].
  intros Hnd. inversion_clear Hnd as [|? ? Hnotin Hnd'].
  destruct (decide (k = k2)); simpl; [assumption|].
  constructor; [|auto]. intros Hin. apply Hnotin.
  exact (dict_keys_del_incl k k2 d Hin).
Qed.

Lemma dict_del_removes k d :
  List.NoDup (dict_keys d) -> ~ In k (dict_keys (dict_del k d)).
Proof.
  unfold dict_keys. induction d as [|[k2 v2] d IH]; simpl; [tauto|].
  intros Hnd. inversion_clear Hnd as [|? ? Hnotin Hnd'].
  destruct (decide (k = k2)) as [->|Hne]; simpl; [assumption|].
  intros [?|Hin]; [congruence | exact (IH Hnd' Hin)].
Qed.

Lemma dict_del_length k d :
  dict_in k d = true -> S (length (dict_del k d)) = length d.
Proof.
  unfold dict_in. induction d as [|[k2 v2] d IH]; simpl; [discriminate|].
  destruct (decide (k = k2)); simpl; [reflexivity|]. intros E. f_equal. auto.
Qed.

Lemma dict_set_NoDup k v d :
  List.NoDup (dict_keys d) -> List.NoDup (dict_keys (dict_set k v d)).
Proof.
  rewrite dict_keys_set. destruct (dict_in k d) eqn:E; [trivial|].
  intros Hnd. apply dict_in_false_keys in E.
  rewrite <- (rev_involutive (dict_keys d ++ [k])).
  apply NoDup_rev. rewrite rev_app_distr. simpl. constructor.
  - rewrite <- in_rev. assumption.
  - apply NoDup_rev. assumption.
Qed.
End PyDictFacts.

(** ** [save], case by case *)


Lemma save_capacity (self : t) (h : Heap) (user : loc) (u : User.t) now :
  h !! user = Some u ->
  at_capacity_and_absent self u = true ->
  save self h user now = Raise (capacity_error self now) (self, h).
Proof.
  unfold save, at_capacity_and_absent. intros -> ->. reflexivity.
Qed.

Lemma save_keep_id (self : t) (h : Heap) (user : loc) (u : User.t) now :
  h !! user = Some u ->
  at_capacity_and_absent self u = false ->
  takes_fresh_id self u = false ->
  save self h user now =
    match User.__post_init__ u with
    | Some e => Raise (invalid_user_error e u now) (self, h)
    | None =>
        Return (User.id u)
               (set_users (dict_set (User.id u) user (_users self)) self, h)
    end.
Proof.
  unfold save, at_capacity_and_absent, takes_fresh_id. intros -> -> ->.
  reflexivity.
Qed.

Lemma save_fresh_id (self : t) (h : Heap) (user : loc) (u : User.t) now :
  h !! user = Some u ->
  at_capacity_and_absent self u = false ->
  takes_fresh_id self u = true ->
  let u1 := User.set_id (_next_id self) u in
  let self1 := set_next_id (_next_id self + 1) self in
  save self h user now =
    match User.__post_init__ u1 with
    | Some e => Raise (invalid_user_error e u1 now) (self1, <[user := u1]> h)
    | None =>
        Return (_next_id self)
               (set_users (dict_set (_next_id self) user (_users self)) self1,
                <[user := u1]> h)
    end.
Proof.
  unfold save, at_capacity_and_absent, takes_fresh_id. intros -> -> ->.
  reflexivity.
Qed.

Lemma save_post_state (self : t) (h : Heap) (user : loc) (u : User.t) now :
  h !! user = Some u ->
  exists s, state_of (save self h user now) = Some s /\ save_post self h user u s.
Proof.
  intros Hu.
  destruct (at_capacity_and_absent self u) eqn:Hc.
  - rewrite (save_capacity _ _ _ _ _ Hu Hc). eexists; split; [reflexivity|].
    constructor.
  - destruct (takes_fresh_id self u) eqn:Hf.
    + rewrite (save_fresh_id _ _ _ _ _ Hu Hc Hf).
      destruct (User.__post_init__ _); eexists; (split; [reflexivity|]).
      * now apply post_consumed.
      * now apply post_stored.
    + rewrite (save_keep_id _ _ _ _ _ Hu Hc Hf).
      destruct (User.__post_init__ _); eexists; (split; [reflexivity|]).
      * apply post_same.
      * now apply post_overwritten.
Qed.

Lemma step_Save (w : World) (user : loc) now :
  step w (Save user now) = w
  \/ exists u s, heap w !! user = Some u
       /\ save_post (repo w) (heap w) user u s
       /\ state_of (save (repo w) (heap w) user now) = Some s
       /\ step w (Save user now) = mkWorld (snd s) (fst s).
Proof.
  unfold step. destruct (heap w !! user) as [u|] eqn:Hu.
  - right. destruct (save_post_state (repo w) (heap w) user u now Hu)
      as ([r h'] & Hs & Hp).
    exists u, (r, h'). repeat split; trivial.
    destruct (save (repo w) (heap w) user now) as [a [r0 h0]|e [r0 h0]|];
      simpl in Hs; [injection Hs as -> -> ..|injection Hs as -> ->|discriminate];
      reflexivity.
  - left. unfold save. rewrite Hu. reflexivity.
Qed.

(** ** The invariant is established by [__init__] and kept by every step *)

Lemma init_Inv (max_users : Z) (now : Timestamp) : Inv (init max_users now).
Proof.
  constructor; unfold keys, next_id, refs_valid; simpl.
  - constructor.
  - constructor.
  - lia.
  - constructor.
  - unfold len. simpl. lia.
Qed.

Lemma key_not_zero (w : World) (k : UserId) :
  Inv w -> In k (keys w) -> k <> 0 /\ k < next_id w.
Proof.
  intros HI Hin. pose proof (inv_keys w HI) as HF.
  rewrite List.Forall_forall in HF. specialize (HF k Hin). lia.
Qed.

Lemma fresh_means_absent (w : World) (u : User.t) :
  Inv w -> takes_fresh_id (repo w) u = true ->
  dict_in (User.id u) (_users (repo w)) = false.
Proof.
  intros HI. unfold takes_fresh_id. rewrite orb_true_iff, negb_true_iff.
  intros [E|E]; [|assumption].
  apply Z.eqb_eq in E. apply dict_in_false_keys. intros Hin.
  destruct (key_not_zero w _ HI Hin). congruence.
Qed.

Lemma next_id_absent (w : World) :
  Inv w -> dict_in (next_id w) (_users (repo w)) = false.
Proof.
  intros HI. apply dict_in_false_keys. intros Hin.
  destruct (key_not_zero w _ HI Hin). lia.
Qed.

Lemma save_post_Inv (w : World) (user : loc) (u : User.t) (s : t * Heap) :
  Inv w -> heap w !! user = Some u ->
  save_post (repo w) (heap w) user u s ->
  Inv (mkWorld (snd s) (fst s)).
Proof.
  intros HI Hu Hp. destruct HI as [Hnd Hk Hn Hr Hc].
  assert (Inv w) as HI by (constructor; assumption).
  assert (user < length (heap w))%nat as Hlt by (eapply lookup_lt_Some; eauto).
  unfold keys, next_id, refs_valid, find_all in *.
  destruct Hp as [|Hf Hcap|Hf|Hf Hcap]; simpl.
  - destruct w; constructor; assumption.
  - constructor; unfold keys, next_id, refs_valid, find_all; simpl.
    + assumption.
    + eapply Forall_impl; [eassumption|]. simpl. intros; lia.
    + lia.
    + rewrite List.Forall_forall in *. intros l Hl.
      rewrite length_insert. auto.
    + assumption.
  - assert (dict_in (User.id u) (_users (repo w)) = true) as Hin.
    { unfold takes_fresh_id in Hf. apply orb_false_iff in Hf.
      destruct Hf as [_ Hf]. now apply negb_false_iff in Hf. }
    constructor; unfold keys, next_id, refs_valid, find_all; simpl.
    + now apply dict_set_NoDup.
    + rewrite dict_keys_set, Hin. assumption.
    + assumption.
    + rewrite List.Forall_forall in *. intros l Hl.
      apply dict_values_set_incl in Hl. destruct Hl as [->|Hl]; auto.
    + unfold len in *. rewrite dict_set_length, Hin. assumption.
  - pose proof (next_id_absent w HI) as Hnew. unfold next_id in Hnew.
    pose proof (fresh_means_absent w u HI Hf) as Habs.
    constructor; unfold keys, next_id, refs_valid, find_all; simpl.
    + now apply dict_set_NoDup.
    + rewrite dict_keys_set, Hnew. apply Forall_app. split.
      * eapply Forall_impl; [eassumption|]. simpl. intros; lia.
      * constructor; [lia|constructor].
    + lia.
    + rewrite List.Forall_forall in *. intros l Hl. rewrite length_insert.
      apply dict_values_set_incl in Hl. destruct Hl as [->|Hl]; auto.
    + unfold len in *. rewrite dict_set_length, Hnew.
      unfold at_capacity_and_absent in Hcap. rewrite Habs in Hcap.
      simpl in Hcap. rewrite andb_true_r in Hcap.
      apply Z.leb_gt in Hcap. unfold len in Hcap. lia.
Qed.

Lemma delete_Inv (w : World) (k : UserId) :
  Inv w -> Inv (mkWorld (heap w) (snd (delete (repo w) k))).
Proof.
  intros [Hnd Hk Hn Hr Hc]. unfold delete.
  destruct (dict_in k (_users (repo w))) eqn:Hin; simpl.
  - unfold keys, next_id, refs_valid, find_all in *.
    constructor; unfold keys, next_id, refs_valid, find_all; simpl.
    + now apply dict_del_NoDup.
    + rewrite List.Forall_forall in *. intros k' Hk'.
      apply Hk. eapply dict_keys_del_incl; eauto.
    + assumption.
    + rewrite List.Forall_forall in *. intros l Hl.
      apply Hr. eapply dict_values_del_incl; eauto.
    + pose proof (dict_del_length k _ Hin) as E. unfold len in *. lia.
  - destruct w; constructor; assumption.
Qed.

Lemma step_Inv (w : World) (op : Op) : Inv w -> Inv (step w op).
Proof.
  intros HI. destruct op as [user now|k| |k|now|f|user f].
  - destruct (step_Save w user now) as [->|(u & s & Hu & Hp & _ & ->)];
      [assumption|]. eapply save_post_Inv; eauto.
  - assumption.
  - assumption.
  - now apply delete_Inv.
  - assumption.
  - simpl. destruct (User.__init__ _ _ _ _ _ _ _ _); [assumption|].
    destruct HI as [Hnd Hk Hn Hr Hc]. constructor; trivial.
    unfold refs_valid in *. simpl. rewrite List.Forall_forall in *.
    intros l Hl. rewrite length_app. specialize (Hr l Hl). lia.
  - destruct HI as [Hnd Hk Hn Hr Hc]. constructor; trivial.
    unfold refs_valid in *. simpl. rewrite List.Forall_forall in *.
    intros l Hl. rewrite length_insert. auto.
Qed.

Lemma run_app (ops ops' : list Op) (w : World) :
  run (ops ++ ops') w = run ops' (run ops w).
Proof. unfold run. apply fold_left_app. Qed.

Lemma run_Inv (ops : list Op) (w : World) : Inv w -> Inv (run ops w).
Proof.
  revert w. induction ops as [|op ops IH]; intros w HI; simpl; [assumption|].
  apply IH. now apply step_Inv.
Qed.

Lemma reachable_Inv (ops : list Op) (max_users : Z) (t0 : Timestamp) :
  Inv (run ops (init max_users t0)).
Proof. apply run_Inv, init_Inv. Qed.

(** ** The counter and the capacity along a run *)

Lemma save_post_counter (self : t) (h : Heap) (user : loc) (u : User.t) s :
  save_post self h user u s ->
  _max_users (fst s) = _max_users self
  /\ (_next_id (fst s) = _next_id self \/ _next_id (fst s) = _next_id self + 1).
Proof. destruct 1; simpl; auto. Qed.

Lemma step_next_id (w : World) (op : Op) :
  next_id (step w op) = next_id w \/ next_id (step w op) = next_id w + 1.
Proof.
  destruct op as [user now|k| |k|now|f|user f]; try (left; reflexivity).
  - destruct (step_Save w user now) as [->|(u & s & Hu & Hp & _ & ->)];
      [now left|]. unfold next_id. simpl.
    destruct (save_post_counter _ _ _ _ _ Hp) as [_ [E|E]]; auto.
  - unfold step, delete, next_id.
    destruct (dict_in _ _); simpl; now left.
  - unfold step. destruct (User.__init__ _ _ _ _ _ _ _ _); now left.
Qed.

Lemma step_max_users (w : World) (op : Op) :
  _max_users (repo (step w op)) = _max_users (repo w).
Proof.
  destruct op as [user now|k| |k|now|f|user f]; try reflexivity.
  - destruct (step_Save w user now) as [->|(u & s & Hu & Hp & _ & ->)];
      [reflexivity|]. simpl. now destruct (save_post_counter _ _ _ _ _ Hp).
  - unfold step, delete. destruct (dict_in _ _); reflexivity.
  - unfold step. destruct (User.__init__ _ _ _ _ _ _ _ _); reflexivity.
Qed.

Lemma run_next_id_mono (ops : list Op) (w : World) :
  next_id w <= next_id (run ops w).
Proof.
  revert w. induction ops as [|op ops IH]; intros w; simpl; [lia|].
  specialize (IH (step w op)). destruct (step_next_id w op); lia.
Qed.

Lemma run_max_users (ops : list Op) (w : World) :
  _max_users (repo (run ops w)) = _max_users (repo w).
Proof.
  revert w. induction ops as [|op ops IH]; intros w; simpl; [reflexivity|].
  rewrite IH. apply step_max_users.
Qed.

(** ** Capacity *)

Lemma run_within_capacity (ops : list Op) (max_users : Z) (t0 : Timestamp) :
  len (_users (repo (run ops (init max_users t0)))) <= Z.max 0 max_users.
Proof.
  pose proof (inv_capacity _ (reachable_Inv ops max_users t0)) as H.
  rewrite run_max_users in H. exact H.
Qed.

(** The claim of C1 fails as stated: in a full repository, saving a user whose
    identifier is present does not succeed when the user's data no longer
    passes validation; [save] raises the validation error instead. *)
Lemma save_present_at_capacity_may_fail :
  let w := full_with_defaced_user in
  len (_users (repo w)) = _max_users (repo w)
  /\ (exists u, heap w !! 0%nat = Some u
        /\ dict_in (User.id u) (_users (repo w)) = true)
  /\ (exists e, save (repo w) (heap w) 0%nat 0%float
                = Raise (ValidationError e) (repo w, heap w)
        /\ ApplicationError.error_code e = "INVALID_USER_DATA")
  /\ ~ (exists k s, save (repo w) (heap w) 0%nat 0%float = Return k s).
Proof.
  vm_compute. split; [reflexivity|]. split.
  - eexists. split; reflexivity.
  - split.
    + eexists. split; reflexivity.
    + intros (k & s & [=]).
Qed.

(** C1 (amended). In every repository reached from [__init__] through any
    sequence of operations, and for every user object: [save] never leaves
    more entries than the capacity allows; when the store is full and the
    user's identifier is not a key, [save] raises the repository error
    CAPACITY_EXCEEDED and nothing changes; when the store is full and the
    identifier is a key, [save] succeeds and overwrites that entry provided
    the user's data passes validation, and otherwise raises the validation
    error INVALID_USER_DATA with the store unchanged. *)
Theorem save_capacity_contract
    (ops : list Op) (max_users : Z) (t0 now : Timestamp)
    (user : loc) (u : User.t) :
  let w := run ops (init max_users t0) in
  heap w !! user = Some u ->
  (exists s, state_of (save (repo w) (heap w) user now) = Some s
     /\ len (_users (fst s)) <= Z.max 0 max_users
     /\ (len (_users (repo w)) <= max_users -> len (_users (fst s)) <= max_users))
  /\ (max_users <= len (_users (repo w)) ->
      dict_in (User.id u) (_users (repo w)) = false ->
      exists e,
        save (repo w) (heap w) user now = Raise (RepositoryError e) (repo w, heap w)
        /\ ApplicationError.error_code e = "CAPACITY_EXCEEDED")
  /\ (max_users <= len (_users (repo w)) ->
      dict_in (User.id u) (_users (repo w)) = true ->
      (valid_user_data (User.email u) (User.age u) ->
       save (repo w) (heap w) user now
       = Return (User.id u)
           (set_users (dict_set (User.id u) user (_users (repo w))) (repo w),
            heap w)
       /\ dict_get (User.id u) (dict_set (User.id u) user (_users (repo w)))
          = Some user
       /\ length (dict_set (User.id u) user (_users (repo w)))
          = length (_users (repo w)))
      /\ (~ valid_user_data (User.email u) (User.age u) ->
          exists e,
            save (repo w) (heap w) user now
            = Raise (ValidationError e) (repo w, heap w)
            /\ ApplicationError.error_code e = "INVALID_USER_DATA")).
Proof.
  intros w Hu.
  pose proof (reachable_Inv ops max_users t0) as HI. fold w in HI.
  assert (_max_users (repo w) = max_users) as Hmax
    by (unfold w; now rewrite run_max_users).
  split; [|split].
  - destruct (save_post_state (repo w) (heap w) user u now Hu) as (s & Hs & Hp).
    exists s. split; [assumption|].
    pose proof (inv_capacity _ (save_post_Inv w user u s HI Hu Hp)) as Hc.
    simpl in Hc. destruct (save_post_counter _ _ _ _ _ Hp) as [Hm _].
    rewrite Hm, Hmax in Hc. split; [assumption|]. intros Hle.
    pose proof (Zle_0_nat (length (_users (repo w)))). unfold len in *. lia.
  - intros Hfull Habs.
    assert (at_capacity_and_absent (repo w) u = true) as Hc.
    { unfold at_capacity_and_absent. rewrite Habs, Hmax. simpl.
      rewrite andb_true_r. now apply Z.leb_le. }
    rewrite (save_capacity _ _ _ _ now Hu Hc). eexists. split; reflexivity.
  - intros Hfull Hin.
    assert (at_capacity_and_absent (repo w) u = false) as Hc
      by (unfold at_capacity_and_absent; rewrite Hin; apply andb_false_r).
    assert (takes_fresh_id (repo w) u = false) as Hf.
    { destruct (takes_fresh_id (repo w) u) eqn:E; [|reflexivity].
      pose proof (fresh_means_absent w u HI E). congruence. }
    rewrite (save_keep_id _ _ _ _ _ Hu Hc Hf).
    pose proof (post_init_None u) as Hv.
    destruct (User.__post_init__ u) as [e|] eqn:E.
    + split.
      * intros Hvalid. apply Hv in Hvalid. discriminate.
      * intros _. eexists. split; reflexivity.
    + split.
      * intros _. split; [reflexivity|]. split.
        -- apply dict_get_set_eq.
        -- rewrite dict_set_length, Hin. reflexivity.
      * intros Hbad. exfalso. apply Hbad, Hv. reflexivity.
Qed.

Lemma save_capacity_contract_witness :
  let w := run [NewUser alice; Save 0%nat 0%float] (init 1 0%float) in
  heap w !! 0%nat = Some (User.set_id 1 alice)
  /\ save (repo w) (heap w) 0%nat 0%float = Return 1 (repo w, heap w).
Proof.
  intros w.
  assert (heap w !! 0%nat = Some (User.set_id 1 alice)) as H by reflexivity.
  split; [exact H|].
  destruct (save_capacity_contract [NewUser alice; Save 0%nat 0%float] 1 0%float 0%float
              0%nat (User.set_id 1 alice) H) as (_ & _ & H3).
  destruct H3 as [Hok _]; [vm_compute; discriminate | reflexivity |].
  destruct Hok as [E _]; [apply (post_init_None (User.set_id 1 alice)); reflexivity|].
  exact E.
Defined.

(** ** Identifiers taken from the counter *)

Lemma issued_by_Save (w : World) (user : loc) (u : User.t) (now : Timestamp) :
  heap w !! user = Some u ->
  if negb (at_capacity_and_absent (repo w) u) && takes_fresh_id (repo w) u
  then issued_by w (Save user now) = Some (next_id w)
       /\ next_id (step w (Save user now)) = next_id w + 1
       /\ heap (step w (Save user now))
          = <[user := User.set_id (next_id w) u]> (heap w)
  else issued_by w (Save user now) = None
       /\ next_id (step w (Save user now)) = next_id w
       /\ heap (step w (Save user now)) = heap w.
Proof.
  intros Hu. unfold issued_by, step, next_id.
  destruct (at_capacity_and_absent (repo w) u) eqn:Hc; simpl.
  - rewrite (save_capacity _ _ _ _ now Hu Hc). simpl.
    rewrite Z.eqb_refl. auto.
  - destruct (takes_fresh_id (repo w) u) eqn:Hf.
    + rewrite (save_fresh_id _ _ _ _ now Hu Hc Hf).
      destruct (User.__post_init__ _); simpl;
        (destruct (Z.eqb_spec (_next_id (repo w) + 1) (_next_id (repo w)));
         [lia | auto]).
    + rewrite (save_keep_id _ _ _ _ now Hu Hc Hf).
      destruct (User.__post_init__ _); simpl; rewrite Z.eqb_refl; auto.
Qed.

Lemma issued_by_bound (w : World) (op : Op) (k : UserId) :
  issued_by w op = Some k -> k = next_id w /\ next_id (step w op) = k + 1.
Proof.
  destruct op as [user now|?| |?|?|?|? ?]; try discriminate.
  unfold issued_by.
  destruct (Z.eqb_spec (next_id (step w (Save user now))) (next_id w));
    [discriminate|].
  intros [= <-]. split; [reflexivity|].
  destruct (step_next_id w (Save user now)); congruence.
Qed.

Lemma issued_bounds (ops : list Op) (w : World) :
  Forall (fun k => next_id w <= k < next_id (run ops w)) (issued ops w).
Proof.
  revert w. induction ops as [|op ops IH]; intros w; simpl; [constructor|].
  specialize (IH (step w op)).
  pose proof (run_next_id_mono ops (step w op)) as Hm.
  assert (Forall (fun k => next_id w <= k < next_id (run ops (step w op)))
            (issued ops (step w op))) as IH'.
  { eapply Forall_impl; [exact IH|]. simpl. intros k.
    destruct (step_next_id w op); lia. }
  destruct (issued_by w op) as [k|] eqn:E; [|assumption].
  destruct (issued_by_bound w op k E) as [-> E']. constructor; [lia|assumption].
Qed.

Lemma issued_increasing (ops : list Op) (w : World) :
  StronglySorted Z.lt (issued ops w).
Proof.
  revert w. induction ops as [|op ops IH]; intros w; simpl; [constructor|].
  destruct (issued_by w op) as [k|] eqn:E; [|apply IH].
  destruct (issued_by_bound w op k E) as [-> E'].
  constructor; [apply IH|].
  eapply Forall_impl; [apply issued_bounds|]. simpl. intros; lia.
Qed.

Lemma issued_app (ops ops' : list Op) (w : World) :
  issued (ops ++ ops') w = issued ops w ++ issued ops' (run ops w).
Proof.
  revert w. induction ops as [|op ops IH]; intros w; simpl; [reflexivity|].
  rewrite IH. destruct (issued_by w op); reflexivity.
Qed.

Lemma step_keys (w : World) (op : Op) (k : UserId) :
  In k (keys (step w op)) -> In k (keys w) \/ k = next_id w.
Proof.
  destruct op as [user now|?| |k'|?|f|? ?]; try (now left).
  - destruct (step_Save w user now) as [->|(u & s & Hu & Hp & _ & ->)];
      [now left|].
    unfold keys, next_id. destruct Hp as [|Hf Hcap|Hf|Hf Hcap]; simpl;
      try (now left); rewrite dict_keys_set.
    + unfold takes_fresh_id in Hf. apply orb_false_iff in Hf.
      destruct Hf as [_ Hf]. apply negb_false_iff in Hf. rewrite Hf. now left.
    + destruct (dict_in _ _); [now left|]. rewrite in_app_iff. simpl.
      intros [?|[<-|[]]]; [now left | now right].
  - unfold step, delete, keys. destruct (dict_in _ _) eqn:E; simpl; [|now left].
    intros Hin. left. eapply dict_keys_del_incl; eauto.
  - unfold step. destruct (User.__init__ _ _ _ _ _ _ _ _); now left.
Qed.

Lemma run_keys_never_below_counter (ops : list Op) (w : World) (k : UserId) :
  k < next_id w -> ~ In k (keys w) -> ~ In k (keys (run ops w)).
Proof.
  revert w. induction ops as [|op ops IH]; intros w Hlt Hnot; simpl; [assumption|].
  apply IH.
  - destruct (step_next_id w op); lia.
  - intros Hin. destruct (step_keys w op k Hin); [tauto | lia].
Qed.

Lemma delete_step (w : World) (k : UserId) :
  Inv w -> ~ In k (keys (step w (Delete k))).
Proof.
  intros HI. unfold step, delete, keys.
  destruct (dict_in k (_users (repo w))) eqn:E; simpl.
  - apply dict_del_removes. exact (inv_nodup _ HI).
  - now apply dict_in_false_keys.
Qed.

(** The claim of C4 fails as stated: with a full store, [save] of a user
    whose identifier is 0 is rejected by the capacity check before any
    identifier is assigned; the counter and the object are untouched. *)
Lemma save_on_full_store_assigns_nothing :
  let w := run [NewUser alice] (init 0 0%float) in
  heap w !! 0%nat = Some alice
  /\ User.id alice = 0
  /\ issued_by w (Save 0%nat 0%float) = None
  /\ step w (Save 0%nat 0%float) = w.
Proof. vm_compute. repeat split. Qed.

(** C4 (amended). Along every sequence of operations on a repository built
    by [__init__]: the counter never decreases; [save] takes a fresh
    identifier from the counter exactly when it is not rejected by the
    capacity check and the user's identifier is 0 or is not a key of the
    store, and then writes it to the user object and advances the counter
    by one; the identifiers taken from the counter are strictly increasing,
    so each is greater than every one issued before; and an identifier
    removed by [delete] is never issued again and never again a key. *)
Theorem counter_issues_fresh_identifiers
    (ops : list Op) (max_users : Z) (t0 : Timestamp) :
  let w := run ops (init max_users t0) in
  (forall ops', next_id w <= next_id (run ops' w))
  /\ (forall user u now, heap w !! user = Some u ->
        (issued_by w (Save user now) = Some (next_id w)
         <-> at_capacity_and_absent (repo w) u = false
             /\ (User.id u = 0 \/ ~ In (User.id u) (keys w)))
        /\ (issued_by w (Save user now) = Some (next_id w) ->
            next_id (step w (Save user now)) = next_id w + 1
            /\ heap (step w (Save user now)) !! user
               = Some (User.set_id (next_id w) u))
        /\ (issued_by w (Save user now) <> Some (next_id w) ->
            issued_by w (Save user now) = None
            /\ next_id (step w (Save user now)) = next_id w
            /\ heap (step w (Save user now)) = heap w))
  /\ (forall ops', StronglySorted Z.lt (issued (ops ++ ops') (init max_users t0)))
  /\ (forall k ops', In k (keys w) ->
        let w' := step w (Delete k) in
        ~ In k (keys w')
        /\ ~ In k (issued ops' w')
        /\ ~ In k (keys (run ops' w'))).
Proof.
  intros w. pose proof (reachable_Inv ops max_users t0) as HI. fold w in HI.
  split; [|split; [|split]].
  - intros ops'. apply run_next_id_mono.
  - intros user u now Hu.
    pose proof (issued_by_Save w user u now Hu) as Hs.
    assert (takes_fresh_id (repo w) u = true
            <-> User.id u = 0 \/ ~ In (User.id u) (keys w)) as Hfresh.
    { unfold takes_fresh_id, keys.
      rewrite orb_true_iff, negb_true_iff, Z.eqb_eq, dict_in_false_keys.
      reflexivity. }
    assert (user < length (heap w))%nat as Hlt by (eapply lookup_lt_Some; eauto).
    destruct (at_capacity_and_absent (repo w) u);
      destruct (takes_fresh_id (repo w) u); cbn [negb andb] in Hs;
      destruct Hs as (Hi & Hn & Hh); rewrite Hi, Hn, Hh.
    + split; [split; [discriminate | intros [[=] _]]|].
      split; [discriminate | auto].
    + split; [split; [discriminate | intros [[=] _]]|].
      split; [discriminate | auto].
    + split; [|split].
      * split; [|reflexivity]. intros _. split; [reflexivity|].
        apply Hfresh. reflexivity.
      * intros _. split; [reflexivity|].
        now rewrite list_lookup_insert_eq by assumption.
      * intros Hx. now destruct Hx.
    + split; [split; [discriminate|]|split; [discriminate | auto]].
      intros [_ Hx]. apply Hfresh in Hx. discriminate.
  - intros ops'. apply issued_increasing.
  - intros k ops' Hin w'.
    assert (~ In k (keys w')) as Hgone by (apply delete_step; assumption).
    destruct (key_not_zero w k HI Hin) as [_ Hlt].
    assert (next_id w' = next_id w) as Hnext.
    { unfold w', step, delete, next_id. destruct (dict_in _ _); reflexivity. }
    split; [assumption|]. split.
    + intros Hiss. pose proof (issued_bounds ops' w') as Hb.
      rewrite List.Forall_forall in Hb. specialize (Hb k Hiss). lia.
    + apply run_keys_never_below_counter; [lia | assumption].
Qed.

(** ** What [save] does to the stored mapping *)

Lemma save_Return_users (self : t) (h : Heap) (user : loc) now k s :
  save self h user now = Return k s ->
  _users (fst s) = dict_set k user (_users self)
  /\ exists u, h !! user = Some u /\ User.__post_init__
       (if takes_fresh_id self u then User.set_id (_next_id self) u else u) = None.
Proof.
  unfold save, takes_fresh_id. destruct (h !! user) as [u|]; [|discriminate].
  destruct (_ && _); [discriminate|].
  destruct (_ || _) eqn:F;
    (destruct (User.__post_init__ _) eqn:E; [discriminate|]);
    intros [= <- <-]; simpl; (split; [reflexivity|]); exists u; rewrite F;
    (split; [reflexivity | exact E]).
Qed.

Lemma save_Raise_users (self : t) (h : Heap) (user : loc) now e s :
  save self h user now = Raise e s -> _users (fst s) = _users self.
Proof.
  unfold save. destruct (h !! user) as [u|]; [|discriminate].
  destruct (_ && _); [intros [= <- <-]; reflexivity|].
  destruct (_ || _); (destruct (User.__post_init__ _); [|discriminate]);
    intros [= <- <-]; reflexivity.
Qed.

Lemma dict_get_None_keys {K V} `{EqDecision K} (k : K) (d : list (K * V)) :
  dict_get k d = None <-> ~ In k (dict_keys d).
Proof.
  rewrite <- dict_in_false_keys. unfold dict_in.
  destruct (dict_get k d); split; congruence.
Qed.

(** ** [delete] *)

Lemma live_step (k : UserId) (w : World) (op : Op) :
  Inv w ->
  let live' (live : bool) :=
    match op with
    | Save user now =>
        match save (repo w) (heap w) user now with
        | Return k' _ => if k' =? k then true else live
        | _ => live
        end
    | Delete k' => if k' =? k then false else live
    | _ => live
    end in
  forall live, (live = true <-> In k (keys w)) ->
  (live' live = true <-> In k (keys (step w op))).
Proof.
  intros HI live' live Hl. subst live'.
  destruct op as [user now|?| |k'|?|f|? ?]; try exact Hl.
  - unfold step, keys in *.
    destruct (save (repo w) (heap w) user now) as [k' [r h']|e [r h']|] eqn:E.
    + apply save_Return_users in E. destruct E as [E _]. simpl in *.
      rewrite E, dict_keys_set.
      destruct (Z.eqb_spec k' k) as [->|Hne].
      * split; [|reflexivity]. intros _.
        destruct (dict_in k (_users (repo w))) eqn:Hin.
        -- now apply dict_in_keys.
        -- apply in_app_iff. right. now left.
      * rewrite Hl. destruct (dict_in k' (_users (repo w))); [reflexivity|].
        rewrite in_app_iff. simpl. intuition congruence.
    + apply save_Raise_users in E. simpl in *. now rewrite E.
    + exact Hl.
  - destruct (Z.eqb_spec k' k) as [->|Hne].
    + split; [discriminate|]. intros Hin. exfalso.
      exact (delete_step w k HI Hin).
    + rewrite Hl. unfold step, delete, keys.
      destruct (dict_in k' (_users (repo w))) eqn:Hin; simpl; [|reflexivity].
      split.
      * apply dict_keys_del_other. congruence.
      * apply dict_keys_del_incl.
  - unfold step. destruct (User.__init__ _ _ _ _ _ _ _ _); exact Hl.
Qed.

Lemma saved_not_deleted_keys (k : UserId) (ops : list Op) (w : World) live :
  Inv w -> (live = true <-> In k (keys w)) ->
  (saved_not_deleted k ops w live = true <-> In k (keys (run ops w))).
Proof.
  revert w live. induction ops as [|op ops IH]; intros w live HI Hl; simpl.
  - exact Hl.
  - apply IH; [now apply step_Inv|]. now apply (live_step k w op HI).
Qed.

(** C7. For every identifier that a [save] has returned and no later
    [delete] has removed, [delete] returns true and removes the entry, and
    every further [delete] of that identifier returns false, whatever
    operations come in between; for an identifier that is not stored (in
    particular one never saved), [delete] returns false and leaves the
    repository unchanged. *)
Theorem delete_true_exactly_once
    (ops : list Op) (max_users : Z) (t0 : Timestamp) (k : UserId) :
  let w0 := init max_users t0 in
  let w := run ops w0 in
  (saved_not_deleted k ops w0 false = true ->
     fst (delete (repo w) k) = true
     /\ find_by_id (snd (delete (repo w) k)) k = None
     /\ forall ops',
          delete (repo (run ops' (step w (Delete k)))) k
          = (false, repo (run ops' (step w (Delete k)))))
  /\ (saved_not_deleted k ops w0 false = false ->
      delete (repo w) k = (false, repo w)).
Proof.
  intros w0 w.
  pose proof (reachable_Inv ops max_users t0) as HI. fold w0 in HI. fold w in HI.
  assert (saved_not_deleted k ops w0 false = true <-> In k (keys w)) as Hlive.
  { apply saved_not_deleted_keys; [apply init_Inv|].
    split; [discriminate | intros []]. }
  split.
  - intros Hs. apply Hlive in Hs.
    assert (dict_in k (_users (repo w)) = true) as Hin by now apply dict_in_keys.
    pose proof (delete_step w k HI) as Hgone.
    destruct (key_not_zero w k HI Hs) as [_ Hlt].
    split; [|split].
    + unfold delete. now rewrite Hin.
    + unfold delete, find_by_id. rewrite Hin. simpl. apply dict_get_None_keys.
      apply dict_del_removes. exact (inv_nodup _ HI).
    + intros ops'.
      assert (~ In k (keys (run ops' (step w (Delete k))))) as Hnever.
      { apply run_keys_never_below_counter; [|assumption].
        unfold step, delete, next_id in *. rewrite Hin. simpl. assumption. }
      apply dict_in_false_keys in Hnever. unfold keys in Hnever.
      unfold delete at 1. now rewrite Hnever.
  - intros Hs. unfold delete.
    destruct (dict_in k (_users (repo w))) eqn:Hin; [|reflexivity].
    apply dict_in_keys in Hin. apply Hlive in Hin. congruence.
Qed.

(** ** The error path of [save] *)

Lemma takes_fresh_id_spec (w : World) (u : User.t) :
  takes_fresh_id (repo w) u = true
  <-> User.id u = 0 \/ ~ In (User.id u) (keys w).
Proof.
  unfold takes_fresh_id, keys.
  rewrite orb_true_iff, negb_true_iff, Z.eqb_eq, dict_in_false_keys.
  reflexivity.
Qed.

(** C10. When [save] raises a validation error the stored mapping is left
    unchanged, but the call is not atomic over the whole state: if the user's
    identifier was 0 or not a key of the store, the counter has already been
    advanced and the user object's identifier already overwritten with the
    counter's old value, and that identifier is never a key of the store in
    any later state; otherwise nothing at all has changed. *)
Theorem failed_save_consumes_identifier
    (ops : list Op) (max_users : Z) (t0 now : Timestamp)
    (user : loc) (u : User.t) (e : ApplicationError.t)
    (s : InMemoryUserRepository.t * Heap) :
  let w := run ops (init max_users t0) in
  heap w !! user = Some u ->
  save (repo w) (heap w) user now = Raise (ValidationError e) s ->
  ApplicationError.error_code e = "INVALID_USER_DATA"
  /\ _users (fst s) = _users (repo w)
  /\ (User.id u = 0 \/ ~ In (User.id u) (keys w) ->
      _next_id (fst s) = _next_id (repo w) + 1
      /\ snd s = <[user := User.set_id (_next_id (repo w)) u]> (heap w)
      /\ snd s !! user = Some (User.set_id (_next_id (repo w)) u)
      /\ forall ops',
           ~ In (_next_id (repo w))
                (keys (run ops' (mkWorld (snd s) (fst s)))))
  /\ (~ (User.id u = 0 \/ ~ In (User.id u) (keys w)) -> s = (repo w, heap w)).
Proof.
  intros w Hu Hs.
  pose proof (reachable_Inv ops max_users t0) as HI. fold w in HI.
  pose proof (takes_fresh_id_spec w u) as Hfresh.
  assert (user < length (heap w))%nat as Hlt by (eapply lookup_lt_Some; eauto).
  destruct (at_capacity_and_absent (repo w) u) eqn:Hc.
  { rewrite (save_capacity _ _ _ _ now Hu Hc) in Hs. discriminate. }
  destruct (takes_fresh_id (repo w) u) eqn:Hf.
  - rewrite (save_fresh_id _ _ _ _ now Hu Hc Hf) in Hs.
    destruct (User.__post_init__ _) as [e0|]; [|discriminate].
    injection Hs as <- <-. simpl.
    split; [reflexivity|]. split; [reflexivity|]. split.
    + intros _. split; [reflexivity|]. split; [reflexivity|]. split.
      * now apply list_lookup_insert_eq.
      * intros ops'. apply run_keys_never_below_counter.
        -- unfold next_id. simpl. lia.
        -- unfold keys. simpl. intros Hin.
           destruct (key_not_zero w _ HI Hin) as [_ Hlt']. unfold next_id in Hlt'.
           lia.
    + intros Hn. exfalso. apply Hn, Hfresh. reflexivity.
  - rewrite (save_keep_id _ _ _ _ now Hu Hc Hf) in Hs.
    destruct (User.__post_init__ _) as [e0|]; [|discriminate].
    injection Hs as <- <-. simpl.
    split; [reflexivity|]. split; [reflexivity|]. split.
    + intros Hx. apply Hfresh in Hx. discriminate.
    + intros _. reflexivity.
Qed.

Lemma failed_save_consumes_identifier_witness :
  let defaced := User.mk 0 "Alice" "bad" None UserStatus.PENDING
                   UserPreferences.default 0%float [] in
  let w := run [NewUser alice; Assign 0%nat defaced] (init 1000 0%float) in
  heap w !! 0%nat = Some defaced
  /\ (exists e s,
        save (repo w) (heap w) 0%nat 0%float = Raise (ValidationError e) s
        /\ _users (fst s) = []
        /\ _next_id (repo w) = 1
        /\ _next_id (fst s) = 2
        /\ snd s !! 0%nat = Some (User.set_id 1 defaced)).
Proof.
  intros defaced w.
  assert (heap w !! 0%nat = Some defaced) as Hu by reflexivity.
  split; [exact Hu|].
  eexists. eexists.
  assert (User.id defaced = 0 \/ ~ In (User.id defaced) (keys w)) as Hid
    by (left; reflexivity).
  split; [vm_compute; reflexivity|].
  match goal with
  | |- _users (fst ?s) = _ /\ _ =>
      pose proof (failed_save_consumes_identifier
                    [NewUser alice; Assign 0%nat defaced] 1000 0%float 0%float 0%nat
                    defaced _ s Hu eq_refl) as (_ & Hm & Hc & _)
  end.
  destruct (Hc Hid) as (Hn & _ & Hobj & _).
  split; [exact Hm|]. split; [reflexivity|]. split; [exact Hn|]. exact Hobj.
Defined.

(** ** Case-insensitive comparison of emails *)

Lemma lower_char_ascii_fold (c : ascii) : lower_char (ascii_fold c) = lower_char c.
Proof.
  destruct c as [[] [] [] [] [] [] [] []]; reflexivity.
Qed.

Lemma lower_as_map (s : string) :
  list_ascii_of_string (lower s) = map lower_char (list_ascii_of_string s).
Proof. induction s as [|c s IH]; simpl; [reflexivity | now rewrite IH]. Qed.

Lemma eq_up_to_ascii_case_lower (s t : string) :
  eq_up_to_ascii_case s t -> lower s = lower t.
Proof.
  unfold eq_up_to_ascii_case. intros E.
  rewrite <- (string_of_list_ascii_of_string (lower s)).
  rewrite <- (string_of_list_ascii_of_string (lower t)).
  rewrite !lower_as_map. f_equal.
  rewrite <- (map_ext _ _ lower_char_ascii_fold (list_ascii_of_string s)).
  rewrite <- (map_ext _ _ lower_char_ascii_fold (list_ascii_of_string t)).
  rewrite <- !(List.map_map ascii_fold lower_char). now rewrite E.
Qed.

(** ** The duplicate scan of [create_user_async] *)

Lemma first_duplicate_found (h : Heap) (email : string) (ls : list loc) l u :
  Forall (fun l => (l < length h)%nat) ls ->
  In l ls -> h !! l = Some u -> lower (User.email u) = lower email ->
  exists i l' u',
    UserService.first_duplicate h email ls = Some (Some u')
    /\ first_match h email ls i l' u'.
Proof.
  intros Hv Hin Hu Hm. induction ls as [|l0 ls IH]; [destruct Hin|].
  inversion_clear Hv as [|? ? Hl0 Hv'].
  destruct (lookup_lt_is_Some_2 h l0 Hl0) as [u0 Hu0].
  simpl. rewrite Hu0.
  destruct (String.eqb (lower (User.email u0)) (lower email)) eqn:E.
  - apply String.eqb_eq in E. exists 0%nat, l0, u0. split; [reflexivity|].
    repeat split; trivial. intros j ? ? Hj. lia.
  - apply String.eqb_neq in E.
    destruct Hin as [->|Hin]; [congruence|].
    destruct (IH Hv' Hin) as (i & l' & u' & Hf & Hi & Hl' & Hm' & Hfirst).
    exists (S i), l', u'. split; [assumption|].
    repeat split; trivial.
    intros [|j] lj uj Hj; simpl.
    + intros [= <-] Huj. congruence.
    + apply Hfirst. lia.
Qed.

Lemma first_duplicate_none_valid (h : Heap) (email : string) (ls : list loc) :
  UserService.first_duplicate h email ls = Some None ->
  Forall (fun l => (l < length h)%nat) ls.
Proof.
  induction ls as [|l0 ls IH]; simpl; [constructor|].
  destruct (h !! l0) as [u0|] eqn:Hu0; [|discriminate].
  destruct (String.eqb _ _); [discriminate|].
  intros E. constructor; [eapply lookup_lt_Some; eauto | auto].
Qed.

Lemma dict_values_set_in {K V} `{EqDecision K} (k : K) (v : V) (d : list (K * V)) :
  In v (dict_values (dict_set k v d)).
Proof.
  unfold dict_values. induction d as [|[k' v'] d IH]; simpl; [now left|].
  destruct (decide (k = k')); simpl; [now left | now right].
Qed.

Lemma save_heap (self : t) (h : Heap) (user : loc) (u : User.t) now s :
  h !! user = Some u ->
  state_of (save self h user now) = Some s ->
  length (snd s) = length h
  /\ exists u', snd s !! user = Some u' /\ User.email u' = User.email u.
Proof.
  intros Hu Hs.
  destruct (save_post_state self h user u now Hu) as (s' & Hs' & Hp).
  assert (s' = s) as -> by congruence.
  assert (user < length h)%nat as Hlt by (eapply lookup_lt_Some; eauto).
  destruct Hp; simpl; rewrite ?length_insert; (split; [reflexivity|]);
    rewrite ?list_lookup_insert_eq by assumption; eauto.
Qed.

Section CreateUser.
Context {L : Type} `{Logger.t L}.
Implicit Types self : UserService.t InMemoryUserRepository.t L.

Lemma create_duplicate self (h : Heap) (name email : string) (age : option Z)
    (now : Timestamp) (l : loc) (u : User.t) :
  refs_valid h (UserService._repository self) ->
  In l (find_all (UserService._repository self)) ->
  h !! l = Some u ->
  lower (User.email u) = lower email ->
  exists i l' u' lg,
    first_match h email (find_all (UserService._repository self)) i l' u'
    /\ UserService.create_user_async self h name email age now
       = Raise (UserService.duplicate_email_error email u' now)
               (UserService.set_logger lg self, h).
Proof.
  intros Hv Hin Hu Hm.
  destruct (first_duplicate_found h email _ l u Hv Hin Hu Hm)
    as (i & l' & u' & Hf & Hfirst).
  exists i, l', u'. eexists. split; [exact Hfirst|].
  unfold UserService.create_user_async. simpl. rewrite Hf. reflexivity.
Qed.

Lemma create_success self (h : Heap) (name email : string) (age : option Z)
    (now : Timestamp) (user : loc) s :
  UserService.create_user_async self h name email age now = Return user s ->
  refs_valid (snd s) (UserService._repository (fst s))
  /\ In user (find_all (UserService._repository (fst s)))
  /\ exists u, snd s !! user = Some u /\ User.email u = email.
Proof.
  unfold UserService.create_user_async. simpl.
  destruct (UserService.first_duplicate h email _) as [[?|]|] eqn:Hscan;
    try discriminate.
  apply first_duplicate_none_valid in Hscan.
  unfold User.__init__. destruct (User.__post_init__ _); [discriminate|].
  set (u := User.mk 0 name email age UserStatus.ACTIVE
              UserPreferences.default now []).
  assert ((h ++ [u]) !! length h = Some u) as Hu
    by (rewrite lookup_app_r, Nat.sub_diag by lia; reflexivity).
  destruct (save _ (h ++ [u]) (length h) now) as [uid [repo2 h2]|? [? ?]|] eqn:Hs;
    try discriminate.
  intros [= <- <-]. simpl.
  destruct (save_Return_users _ _ _ _ _ _ Hs) as [Husers _]. simpl in Husers.
  destruct (save_heap (UserService._repository self) _ _ u now (repo2, h2) Hu)
    as (Hlen & u' & Hu' & He).
  { rewrite Hs. reflexivity. }
  simpl in Hlen, Hu'. rewrite length_app in Hlen. simpl in Hlen.
  split; [|split].
  - unfold refs_valid, find_all. rewrite Husers.
    rewrite List.Forall_forall in *. intros l Hl.
    rewrite length_alter, Hlen.
    apply dict_values_set_incl in Hl. destruct Hl as [->|Hl]; [lia|].
    specialize (Hscan l Hl). lia.
  - unfold find_all. rewrite Husers. apply dict_values_set_in.
  - exists (User.set_id uid u'). split.
    + rewrite list_lookup_alter_eq, Hu'. reflexivity.
    + simpl. exact He.
Qed.
End CreateUser.

(** C3. If some stored user's email equals the requested email up to ASCII
    case, [create_user_async] raises the validation error DUPLICATE_EMAIL,
    whose context carries the identifier of the conflicting stored user (the
    first one, in the order of [find_all], whose lower-cased email equals
    the lower-cased request), and neither the repository nor any user
    object changes.  In particular a call with ["A@B.COM"] made after a
    call with ["a@b.com"] has returned raises that error. *)
Theorem duplicate_email_rejected {L : Type} `{Logger.t L}
    (self : UserService.t InMemoryUserRepository.t L) (h : Heap)
    (name email : string) (age : option Z) (now : Timestamp) :
  (forall l u,
      refs_valid h (UserService._repository self) ->
      In l (find_all (UserService._repository self)) ->
      h !! l = Some u ->
      eq_up_to_ascii_case (User.email u) email ->
      exists e s i l' u',
        UserService.create_user_async self h name email age now
        = Raise (ValidationError e) s
        /\ ApplicationError.error_code e = "DUPLICATE_EMAIL"
        /\ first_match h email (find_all (UserService._repository self)) i l' u'
        /\ dict_get "existing_user_id" (ApplicationError.context e)
           = Some (VInt (User.id u'))
        /\ UserService._repository (fst s) = UserService._repository self
        /\ snd s = h)
  /\ (forall user s name2 age2 now2,
        UserService.create_user_async self h name "a@b.com" age now
        = Return user s ->
        exists e s',
          UserService.create_user_async (fst s) (snd s) name2 "A@B.COM" age2 now2
          = Raise (ValidationError e) s'
          /\ ApplicationError.error_code e = "DUPLICATE_EMAIL"
          /\ UserService._repository (fst s') = UserService._repository (fst s)
          /\ snd s' = snd s).
Proof.
  assert (forall (self : UserService.t InMemoryUserRepository.t L) h
            name email age now l u,
      refs_valid h (UserService._repository self) ->
      In l (find_all (UserService._repository self)) ->
      h !! l = Some u ->
      eq_up_to_ascii_case (User.email u) email ->
      exists e s i l' u',
        UserService.create_user_async self h name email age now
        = Raise (ValidationError e) s
        /\ ApplicationError.error_code e = "DUPLICATE_EMAIL"
        /\ first_match h email (find_all (UserService._repository self)) i l' u'
        /\ dict_get "existing_user_id" (ApplicationError.context e)
           = Some (VInt (User.id u'))
        /\ UserService._repository (fst s) = UserService._repository self
        /\ snd s = h) as general.
  { clear. intros self h name email age now l u Hv Hin Hu Heq.
    apply eq_up_to_ascii_case_lower in Heq.
    destruct (create_duplicate self h name email age now l u Hv Hin Hu Heq)
      as (i & l' & u' & lg & Hfirst & Hc).
    rewrite Hc. do 2 eexists. exists i, l', u'.
    split; [reflexivity|]. repeat split; apply Hfirst. }
  split; [apply general|].
  intros user s name2 age2 now2 Hok.
  destruct (create_success self h name "a@b.com" age now user s Hok)
    as (Hv & Hin & u & Hu & He).
  destruct (general (fst s) (snd s) name2 "A@B.COM" age2 now2 user u Hv Hin Hu)
    as (e & s' & _ & _ & _ & Hc & Hcode & _ & _ & Hr & Hh).
  { rewrite He. reflexivity. }
  exists e, s'. auto.
Qed.

Lemma duplicate_email_rejected_witness :
  let svc :=
    UserService.__init__ (InMemoryUserRepository.__init__ 1000 0%float)
      (StructuredLogger.__init__ LogLevel.INFO) 0%float in
  exists user s e s',
    UserService.create_user_async svc [] "Alice" "a@b.com" (Some 28) 0%float
    = Return user s
    /\ UserService.create_user_async (fst s) (snd s) "Alicia" "A@B.COM" None 0%float
       = Raise (ValidationError e) s'
    /\ ApplicationError.error_code e = "DUPLICATE_EMAIL".
Proof.
  intros svc.
  destruct (UserService.create_user_async svc [] "Alice" "a@b.com" (Some 28) 0%float)
    as [user s|? ?|] eqn:E.
  - destruct (proj2 (duplicate_email_rejected svc [] "Alice" "a@b.com"
                       (Some 28) 0%float) user s "Alicia" None 0%float E)
      as (e & s' & Hc & Hcode & _).
    exists user, s, e, s'. auto.
  - exfalso. vm_compute in E. discriminate.
  - exfalso. vm_compute in E. discriminate.
Defined.

(** The scenario of C3 evaluated: the second call fails with the identifier 1
    of the user the first call created. *)
Example duplicate_email_scenario :
  let svc :=
    UserService.__init__ (InMemoryUserRepository.__init__ 1000 0%float)
      (StructuredLogger.__init__ LogLevel.INFO) 0%float in
  match UserService.create_user_async svc [] "Alice" "a@b.com" (Some 28) 0%float with
  | Return user (svc1, h1) =>
      user = 0%nat
      /\ (User.id <$> h1 !! user) = Some 1
      /\ match UserService.create_user_async svc1 h1 "Alicia" "A@B.COM" None 0%float with
         | Raise (ValidationError e) (svc2, h2) =>
             ApplicationError.error_code e = "DUPLICATE_EMAIL"
             /\ ApplicationError.context e
                = [("email", VStr "A@B.COM"); ("existing_user_id", VInt 1)]
             /\ UserService._repository svc2 = UserService._repository svc1
             /\ h2 = h1
         | _ => False
         end
  | _ => False
  end.
Proof. vm_compute. repeat split. Qed.

(** ** Statistics *)

Lemma is_adult_spec (u : User.t) : User.is_adult u = true <-> adult u.
Proof.
  unfold User.is_adult, adult. destruct (User.age u) as [a|].
  - rewrite Z.leb_le. split; [eauto|]. intros (a' & [= ->] & ?). assumption.
  - split; [discriminate|]. intros (a' & [=] & _).
Qed.

Lemma len_cons {A} (x : A) (l : list A) : len (x :: l) = len l + 1.
Proof. unfold len. simpl. lia. Qed.

Lemma stats_loop (users : list User.t) (a : acc) :
  adult_count (fold_left loop_body users a)
  = adult_count a + len (List.filter User.is_adult users)
  /\ total_age (fold_left loop_body users a) = total_age a + sumZ (known_ages users)
  /\ age_count (fold_left loop_body users a) = age_count a + len (known_ages users).
Proof.
  revert a. induction users as [|u users IH]; intros a; simpl.
  - unfold len. simpl. lia.
  - destruct (IH (loop_body a u)) as (E1 & E2 & E3). rewrite E1, E2, E3.
    unfold loop_body, known_ages. simpl.
    destruct (User.is_adult u); destruct (User.age u) as [n|]; simpl;
      rewrite ?len_cons; lia.
Qed.

Lemma stats_loop_status (key : string) (users : list User.t) (a : acc) :
  default 0 (dict_get key (status_counts (fold_left loop_body users a)))
  = default 0 (dict_get key (status_counts a)) + count_status key users.
Proof.
  revert a. induction users as [|u users IH]; intros a; simpl.
  - unfold count_status, len. simpl. lia.
  - rewrite IH. unfold count_status. simpl.
    assert (status_counts (loop_body a u)
            = bump (UserStatus.name (User.status u)) (status_counts a)) as ->
      by (unfold loop_body; destruct (User.age u); reflexivity).
    unfold bump.
    destruct (String.eqb_spec (UserStatus.name (User.status u)) key) as [->|Hne].
    + rewrite dict_get_set_eq, len_cons. simpl. lia.
    + rewrite dict_get_set_ne by congruence. lia.
Qed.

Lemma loops_agree (users : list User.t) (a : acc) (b : UserService.acc) :
  acc_sim a b ->
  acc_sim (fold_left loop_body users a) (fold_left UserService.loop_body users b).
Proof.
  revert a b. induction users as [|u users IH]; intros a b Hab; simpl;
    [assumption|].
  apply IH. destruct Hab as (E1 & E2 & E3 & E4).
  unfold acc_sim, loop_body, UserService.loop_body, bump.
  rewrite E1, E2, E3, E4.
  destruct (User.age u); destruct (User.is_adult u); simpl; auto.
Qed.

Lemma deref_all_length (h : Heap) (ls : list loc) (users : list User.t) :
  deref_all h ls = Some users -> length users = length ls.
Proof.
  revert users. induction ls as [|l ls IH]; intros users; simpl.
  - intros [= <-]. reflexivity.
  - destruct (h !! l); [|discriminate].
    destruct (deref_all h ls); [|discriminate].
    intros [= <-]. simpl. f_equal. auto.
Qed.

Lemma deref_all_valid (h : Heap) (ls : list loc) :
  Forall (fun l => (l < length h)%nat) ls -> exists users, deref_all h ls = Some users.
Proof.
  induction 1 as [|l ls Hl _ [users IH]]; simpl; [eauto|].
  destruct (lookup_lt_is_Some_2 h l Hl) as [u ->]. rewrite IH. eauto.
Qed.

(** ** True division *)

Lemma binary64_overflow_pos : 0 < binary64_overflow.
Proof. reflexivity. Qed.

Lemma truediv_in_range (a b : Z) :
  b <> 0 -> float_range a b ->
  truediv a b
  = inr (nearest_binary64 (xorb (a <? 0) (b <? 0)) (Z.abs a) (Z.abs b)).
Proof.
  unfold truediv, float_range. intros Hb Hr.
  destruct (Z.eqb_spec b 0) as [?|_]; [contradiction|].
  destruct (Z.leb_spec (binary64_overflow * Z.abs b) (Z.abs a)) as [Hle|_];
    [lia | reflexivity].
Qed.

Lemma truediv_out_of_range (a b : Z) :
  b <> 0 -> ~ float_range a b ->
  truediv a b
  = inl (OverflowError "integer division result too large for a float").
Proof.
  unfold truediv, float_range. intros Hb Hr.
  destruct (Z.eqb_spec b 0) as [?|_]; [contradiction|].
  destruct (Z.leb_spec (binary64_overflow * Z.abs b) (Z.abs a)) as [_|Hlt];
    [reflexivity | contradiction].
Qed.

Lemma truediv_inr_iff (a b : Z) :
  (exists f, truediv a b = inr f) <-> b <> 0 /\ float_range a b.
Proof.
  split.
  - intros [f Hf]. unfold truediv, float_range in *.
    destruct (Z.eqb_spec b 0) as [?|Hb]; [discriminate|].
    destruct (Z.leb_spec (binary64_overflow * Z.abs b) (Z.abs a)) as [_|Hlt];
      [discriminate | auto].
  - intros [Hb Hr]. rewrite truediv_in_range by assumption. eauto.
Qed.

(** [int / int] evaluated: rounding to the nearest float with ties to even,
    exact quotients, signed zeros, underflow and the two errors. *)
Example truediv_examples :
  truediv 4 3 = inr 0x1.5555555555555p+0%float
  /\ truediv 1 3 = inr 0x1.5555555555555p-2%float
  /\ truediv 16 1 = inr 16%float
  /\ truediv (-7) 2 = inr (-3.5)%float
  /\ truediv 1 10 = inr 0x1.999999999999ap-4%float
  /\ truediv (2 ^ 53 + 1) 1 = inr 0x1p+53%float
  /\ truediv (2 ^ 53 + 3) 1 = inr 0x1.0000000000002p+53%float
  /\ truediv 0 (-5) = inr (-0)%float
  /\ truediv 1 (10 ^ 400) = inr 0%float
  /\ truediv 1 (2 ^ 1074) = inr 0x1p-1074%float
  /\ truediv (2 ^ 1024 - 2 ^ 970 - 1) 1 = inr 0x1.fffffffffffffp+1023%float
  /\ truediv (2 ^ 1024 - 2 ^ 970) 1
     = inl (OverflowError "integer division result too large for a float")
  /\ truediv (10 ^ 400) 1
     = inl (OverflowError "integer division result too large for a float")
  /\ truediv 1 0 = inl (ZeroDivisionError "division by zero").
Proof. vm_compute. repeat split. Qed.

(** On operands that are floats themselves [int / int] is the IEEE division
    of the two floats: checked on every pair of integers between -100 and
    100, and on every pair of a few integers of up to 53 bits. *)
Example truediv_is_IEEE_division_on_exact_operands :
  let agree (a b : Z) : bool :=
    match truediv a b with
    | inr f => Leibniz.eqb f (float_of_int a / float_of_int b)%float
    | inl _ => b =? 0
    end in
  let small := map (fun n => Z.of_nat n - 100) (seq 0 201) in
  let large :=
    [1; -3; 7; 10; 2 ^ 26 + 1; 10 ^ 15 + 7; - (2 ^ 52) - 1; 2 ^ 52 + 3;
     2 ^ 53 - 1; - (2 ^ 53) + 1; 2 ^ 53] in
  forallb (fun a => forallb (agree a) small) small = true
  /\ forallb (fun a => forallb (agree a) large) large = true.
Proof. vm_compute. split; reflexivity. Qed.

(** ** Statistics: the two divisions *)

Lemma len_nonneg {A} (l : list A) : 0 <= len l.
Proof. unfold len. lia. Qed.

Lemma mean_age_inr_iff (users : list User.t) :
  (exists v, mean_age (known_ages users) = inr v) <-> mean_age_in_range users.
Proof.
  unfold mean_age, mean_age_in_range.
  destruct (known_ages users) as [|a ages]; [split; eauto|].
  assert (len (a :: ages) <> 0) as Hne by (rewrite len_cons; pose proof (len_nonneg ages); lia).
  split.
  - intros [v Hv]. right. apply (truediv_inr_iff (sumZ (a :: ages)) (len (a :: ages))).
    destruct (truediv (sumZ (a :: ages)) (len (a :: ages))) as [e|f];
      [discriminate | eauto].
  - intros [Hnil|Hr]; [discriminate|].
    rewrite truediv_in_range by assumption. eauto.
Qed.

Lemma mean_age_inl (users : list User.t) (e : Exn) :
  mean_age (known_ages users) = inl e ->
  ~ mean_age_in_range users
  /\ e = OverflowError "integer division result too large for a float".
Proof.
  intros He. split.
  - intros Hr. apply mean_age_inr_iff in Hr. destruct Hr as [v Hv]. congruence.
  - unfold mean_age in He.
    destruct (known_ages users) as [|a ages]; [discriminate|].
    assert (len (a :: ages) <> 0) as Hne
      by (rewrite len_cons; pose proof (len_nonneg ages); lia).
    unfold truediv in He.
    destruct (Z.eqb_spec (len (a :: ages)) 0) as [?|_]; [contradiction|].
    destruct (_ <=? _); congruence.
Qed.

Lemma mean_age_out_of_range (users : list User.t) :
  ~ mean_age_in_range users ->
  mean_age (known_ages users)
  = inl (OverflowError "integer division result too large for a float").
Proof.
  intros Hr. destruct (mean_age (known_ages users)) as [e|v] eqn:E.
  - apply mean_age_inl in E. destruct E as [_ ->]. reflexivity.
  - exfalso. apply Hr. apply mean_age_inr_iff. eauto.
Qed.

Lemma average_age_mean (users : list User.t) :
  average_age (fold_left loop_body users acc0) = mean_age (known_ages users).
Proof.
  destruct (stats_loop users acc0) as (_ & E2 & E3).
  change (total_age acc0) with 0 in E2. change (age_count acc0) with 0 in E3.
  rewrite Z.add_0_l in E2, E3.
  unfold average_age, mean_age. rewrite E2, E3.
  destruct (known_ages users) as [|a ages]; [reflexivity|].
  assert ((0 <? len (a :: ages)) = true) as ->
    by (apply Z.ltb_lt; rewrite len_cons; pose proof (len_nonneg ages); lia).
  reflexivity.
Qed.

(** [get_statistics], outcome by outcome: the error of the mean-age division
    if it has one, else the error of the utilisation division if it has one,
    else the nine entries. *)
Lemma get_statistics_eq (self : t) (h : Heap) (now : Timestamp)
    (users : list User.t) :
  deref_all h (find_all self) = Some users ->
  let a := fold_left loop_body users acc0 in
  get_statistics self h now =
    match mean_age (known_ages users) with
    | inl e => Raise e tt
    | inr average =>
        match truediv (len users) (_max_users self) with
        | inl e => Raise e tt
        | inr utilization =>
            Return
              [("total_users", VInt (len users));
               ("status_distribution", counts_dict (status_counts a));
               ("adult_users", VInt (adult_count a));
               ("minor_users", VInt (len users - adult_count a));
               ("average_age", average);
               ("repository_capacity", VInt (_max_users self));
               ("capacity_utilization", VFloat utilization);
               ("repository_age_seconds",
                 VFloat (now - _created_at self)%float);
               ("next_available_id", VInt (_next_id self))]
              tt
        end
    end.
Proof.
  intros Hd a. unfold get_statistics, find_all in *. rewrite Hd.
  assert (len (_users self) = len users) as ->.
  { unfold len. f_equal. apply deref_all_length in Hd.
    unfold dict_values in Hd. rewrite length_map in Hd. congruence. }
  cbv zeta. rewrite average_age_mean. reflexivity.
Qed.

(** The local reduction, outcome by outcome: the error of the mean-age
    division if it has one, else the five entries. *)
Lemma calculate_basic_statistics_eq (users : list User.t) :
  let a := fold_left loop_body users acc0 in
  UserService._calculate_basic_statistics users =
    match mean_age (known_ages users) with
    | inl e => inl e
    | inr average =>
        inr [("total_users", VInt (len users));
             ("status_distribution", counts_dict (status_counts a));
             ("adult_users", VInt (adult_count a));
             ("minor_users", VInt (len users - adult_count a));
             ("average_age", average)]
    end.
Proof.
  destruct users as [|u users']; [reflexivity|].
  set (users := u :: users'). intros a.
  destruct (loops_agree users acc0 (UserService.mk_acc [] 0 0 0))
    as (E1 & E2 & E3 & E4); [repeat split|].
  rewrite <- (average_age_mean users). fold a in E1, E2, E3, E4 |- *.
  unfold UserService._calculate_basic_statistics. fold users.
  unfold users at 1. cbv beta iota zeta. fold users.
  rewrite <- E1, <- E2, <- E3, <- E4. unfold average_age.
  destruct (0 <? age_count a); [|reflexivity].
  destruct (truediv (total_age a) (age_count a)); reflexivity.
Qed.


(** In a repository built by [__init__] and driven through its methods the
    utilisation division has a result whenever the capacity is not zero. *)
Lemma reachable_utilization_in_range (w : World) (users : list User.t) :
  Inv w ->
  deref_all (heap w) (find_all (repo w)) = Some users ->
  _max_users (repo w) <> 0 ->
  float_range (len users) (_max_users (repo w)).
Proof.
  intros HI Hd Hne. pose proof (inv_capacity _ HI) as Hcap.
  assert (len users = len (_users (repo w))) as ->.
  { unfold len. f_equal. apply deref_all_length in Hd.
    unfold find_all, dict_values in Hd. now rewrite length_map in Hd. }
  pose proof (len_nonneg (_users (repo w))) as Hnn.
  pose proof binary64_overflow_pos as Hpos.
  assert (2 <= binary64_overflow) as Htwo by (intros Hc; discriminate Hc).
  unfold float_range. nia.
Qed.

(** C5. On a repository of capacity 0, which [__init__] accepts and which
    holds no user, [get_statistics] returns no result: the division that
    computes the capacity utilisation raises [ZeroDivisionError]. *)
Theorem get_statistics_zero_capacity (t0 now : Timestamp) :
  get_statistics (InMemoryUserRepository.__init__ 0 t0) [] now
  = Raise (ZeroDivisionError "division by zero") tt.
Proof. reflexivity. Qed.





(** Both branches of [get_user_statistics] evaluated on the same two users:
    with the repository's own method, and through the protocol alone. *)
Example get_user_statistics_both_branches :
  let w := run [NewUser alice; Save 0%nat 0%float; NewUser bob; Save 1%nat 0%float]
             (init 1000 0%float) in
  let logger := StructuredLogger.__init__ LogLevel.INFO in
  let expected :=
    [("total_users", VInt 2);
     ("status_distribution", VDict [("PENDING", VInt 2)]);
     ("adult_users", VInt 0);
     ("minor_users", VInt 2);
     ("average_age", VFloat 16%float)] in
  match UserService.get_user_statistics (H := protocol_only)
          (UserService.__init__ (repo w) logger 2%float) (heap w) 5%float with
  | Return stats _ =>
      stats = expected ++ [("service_uptime_seconds", VFloat 3%float)]
  | _ => False
  end
  /\ match UserService.get_user_statistics
             (UserService.__init__ (repo w) logger 2%float) (heap w) 5%float with
     | Return stats _ =>
         Forall (fun key => dict_get key stats = dict_get key expected)
                shared_fields
         /\ dict_get "service_uptime_seconds" stats = Some (VFloat 3%float)
     | _ => False
     end.
Proof. vm_compute. repeat constructor. Qed.

(** With a stored age beyond the range of a float, such as [10 ** 400], both
    reductions raise [OverflowError] and so does [get_user_statistics], by
    either route. *)
Example statistics_of_an_age_beyond_floats :
  let w := run [NewUser methuselah; Save 0%nat 0%float] (init 1000 0%float) in
  let logger := StructuredLogger.__init__ LogLevel.INFO in
  let overflow :=
    OverflowError "integer division result too large for a float" in
  keys w = [1]
  /\ get_statistics (repo w) (heap w) 1%float = Raise overflow tt
  /\ (UserService._calculate_basic_statistics <$>
        deref_all (heap w) (find_all (repo w))) = Some (inl overflow)
  /\ match UserService.get_user_statistics (H := protocol_only)
             (UserService.__init__ (repo w) logger 0%float) (heap w) 1%float with
     | Raise e _ => e = overflow
     | _ => False
     end
  /\ match UserService.get_user_statistics
             (UserService.__init__ (repo w) logger 0%float) (heap w) 1%float with
     | Raise e _ => e = overflow
     | _ => False
     end.
Proof. vm_compute. repeat split. Qed.

(** ** [find_all] *)

(** C6. The list [find_all] returns holds the stored [User] objects
    themselves, not copies: after [find_all()[0].update_status(SUSPENDED)]
    the user that [find_by_id(1)] returns, the same object as before, has
    status SUSPENDED instead of PENDING. *)
Theorem find_all_shares_user_objects :
  let w := run [NewUser alice; Save 0%nat 0%float] (init 1000 0%float) in
  exists l u,
    find_all (repo w) !! 0%nat = Some l
    /\ heap w !! l = Some u
    /\ let w' := step w (Assign l (User.update_status UserStatus.SUSPENDED u)) in
       find_by_id (repo w) 1 = Some l
       /\ find_by_id (repo w') 1 = Some l
       /\ (User.status <$> heap w !! l) = Some UserStatus.PENDING
       /\ (User.status <$> heap w' !! l) = Some UserStatus.SUSPENDED.
Proof. vm_compute. do 2 eexists. repeat split. Qed.

Lemma counter_issues_fresh_identifiers_witness :
  let w := run [NewUser alice] (init 1000 0%float) in
  issued_by w (Save 0%nat 0%float) = Some 1
  /\ next_id (step w (Save 0%nat 0%float)) = 2
  /\ heap (step w (Save 0%nat 0%float)) !! 0%nat = Some (User.set_id 1 alice).
Proof.
  intros w.
  destruct (counter_issues_fresh_identifiers [NewUser alice] 1000 0%float)
    as (_ & Hsave & _).
  destruct (Hsave 0%nat alice 0%float eq_refl) as (Hiff & Hthen & _).
  assert (issued_by w (Save 0%nat 0%float) = Some 1) as Hi.
  { apply Hiff. split; [reflexivity | left; reflexivity]. }
  split; [exact Hi|]. exact (Hthen Hi).
Defined.

Lemma delete_true_exactly_once_witness :
  let ops := [NewUser alice; Save 0%nat 0%float] in
  let w := run ops (init 1000 0%float) in
  let later := run [NewUser bob; Save 1%nat 0%float; Save 0%nat 0%float]
                 (step w (Delete 1)) in
  saved_not_deleted 1 ops (init 1000 0%float) false = true
  /\ fst (delete (repo w) 1) = true
  /\ delete (repo later) 1 = (false, repo later)
  /\ delete (repo w) 7 = (false, repo w).
Proof.
  intros ops w later.
  assert (saved_not_deleted 1 ops (init 1000 0%float) false = true) as Hs by reflexivity.
  destruct (delete_true_exactly_once ops 1000 0%float 1) as [Hlive _].
  destruct (Hlive Hs) as (Ht & _ & Hf).
  destruct (delete_true_exactly_once ops 1000 0%float 7) as [_ Hdead].
  split; [exact Hs|]. split; [exact Ht|]. split.
  - exact (Hf [NewUser bob; Save 1%nat 0%float; Save 0%nat 0%float]).
  - apply Hdead. reflexivity.
Defined.

(** ** The store along a run *)

(** At the end of every run from [__init__], the keys of the store are
    exactly the identifiers some [save] has returned and no later [delete]
    has removed. *)
Theorem stored_keys_are_live_identifiers
    (ops : list Op) (max_users : Z) (t0 : Timestamp) (k : UserId) :
  saved_not_deleted k ops (init max_users t0) false = true
  <-> In k (keys (run ops (init max_users t0))).
Proof.
  apply saved_not_deleted_keys; [apply init_Inv|].
  split; [discriminate | intros []].
Qed.

(** At the end of every run from [__init__], the keys of the store are
    pairwise distinct, each is at least 1 and below the counter, every stored
    reference names an object, and with a non-negative capacity the number
    of entries is within it. *)
Theorem reachable_store_well_formed
    (ops : list Op) (max_users : Z) (t0 : Timestamp) :
  let w := run ops (init max_users t0) in
  List.NoDup (keys w)
  /\ (forall k, In k (keys w) -> 1 <= k < next_id w)
  /\ (forall l, In l (find_all (repo w)) -> exists u, heap w !! l = Some u)
  /\ (exists users, deref_all (heap w) (find_all (repo w)) = Some users)
  /\ _max_users (repo w) = max_users
  /\ (0 <= max_users -> len (_users (repo w)) <= max_users).
Proof.
  intros w. destruct (reachable_Inv ops max_users t0) as [Hnd Hk Hn Hr Hc].
  fold w in Hnd, Hk, Hn, Hr, Hc.
  assert (_max_users (repo w) = max_users) as Hmax by apply run_max_users.
  split; [assumption|]. split; [now apply List.Forall_forall|]. split.
  - intros l Hl. apply lookup_lt_is_Some_2.
    unfold refs_valid in Hr. rewrite List.Forall_forall in Hr. auto.
  - split; [now apply deref_all_valid|]. split; [assumption|]. lia.
Qed.

(** ** [save], [find_by_id], [find_all] and [delete] together *)

Lemma dict_set_idem {K V} `{EqDecision K} (k : K) (v : V) (d : list (K * V)) :
  dict_set k v (dict_set k v d) = dict_set k v d.
Proof.
  induction d as [|[k' v'] d IH]; simpl.
  - destruct (decide (k = k)); [reflexivity | congruence].
  - destruct (decide (k = k')) as [->|Hne]; simpl.
    + destruct (decide (k' = k')); [reflexivity | congruence].
    + destruct (decide (k = k')); [congruence|]. now rewrite IH.
Qed.

Lemma dict_set_absent {K V} `{EqDecision K} (k : K) (v : V) (d : list (K * V)) :
  dict_in k d = false -> dict_set k v d = d ++ [(k, v)].
Proof.
  unfold dict_in. induction d as [|[k' v'] d IH]; simpl; [reflexivity|].
  destruct (decide (k = k')); [discriminate|]. intros E. now rewrite IH.
Qed.

Lemma dict_get_del_ne {K V} `{EqDecision K} (k k' : K) (d : list (K * V)) :
  k' <> k -> dict_get k' (dict_del k d) = dict_get k' d.
Proof.
  intros Hne. induction d as [|[k2 v2] d IH]; simpl; [reflexivity|].
  destruct (decide (k = k2)) as [->|?]; simpl.
  - destruct (decide (k' = k2)); [congruence | reflexivity].
  - destruct (decide (k' = k2)); [reflexivity | assumption].
Qed.

Lemma post_init_set_id (n : UserId) (u : User.t) :
  User.__post_init__ (User.set_id n u) = User.__post_init__ u.
Proof. reflexivity. Qed.

Lemma save_Return_effect (self : t) (h : Heap) (user : loc)
    (now : Timestamp) (k : UserId) (s : t * Heap) :
  save self h user now = Return k s ->
  find_by_id (fst s) k = Some user
  /\ (User.id <$> snd s !! user) = Some k
  /\ (forall k', k' <> k -> find_by_id (fst s) k' = find_by_id self k')
  /\ (forall l, l <> user -> snd s !! l = h !! l)
  /\ length (snd s) = length h.
Proof.
  intros Hs. destruct (save_Return_users _ _ _ _ _ _ Hs) as (Hus & u & Hu & _).
  unfold find_by_id. rewrite Hus.
  split; [apply dict_get_set_eq|].
  assert (user < length h)%nat as Hlt by (eapply lookup_lt_Some; eauto).
  assert ((User.id <$> snd s !! user) = Some k
          /\ (forall l, l <> user -> snd s !! l = h !! l)
          /\ length (snd s) = length h) as (H1 & H2 & H3).
  { unfold save in Hs. rewrite Hu in Hs.
    destruct (_ && _); [discriminate|].
    destruct (_ || _); (destruct (User.__post_init__ _); [discriminate|]);
      injection Hs as <- <-; simpl.
    - rewrite list_lookup_insert_eq by assumption.
      repeat split; [|apply length_insert].
      intros l Hl. now apply list_lookup_insert_ne.
    - rewrite Hu. repeat split. }
  repeat split; trivial. intros k' Hk'. now apply dict_get_set_ne.
Qed.

(** After a successful [save] the returned identifier finds the saved
    object, whose [id] field holds that identifier; every other identifier
    finds what it found before, and no other object has changed. *)
Theorem save_then_find_by_id (self : t) (h : Heap) (user : loc)
    (now : Timestamp) (k : UserId) (s : t * Heap) :
  save self h user now = Return k s ->
  find_by_id (fst s) k = Some user
  /\ (User.id <$> snd s !! user) = Some k
  /\ (forall k', k' <> k -> find_by_id (fst s) k' = find_by_id self k')
  /\ (forall l, l <> user -> snd s !! l = h !! l)
  /\ length (snd s) = length h.
Proof. apply save_Return_effect. Qed.

Lemma save_then_find_by_id_witness :
  let w := run [NewUser alice; NewUser bob; Save 1%nat 0%float] (init 1000 0%float) in
  exists s,
    save (repo w) (heap w) 0%nat 0%float = Return 2 s
    /\ find_by_id (fst s) 2 = Some 0%nat
    /\ find_by_id (fst s) 1 = Some 1%nat
    /\ (User.id <$> snd s !! 0%nat) = Some 2.
Proof.
  intros w. eexists.
  assert (forall s, save (repo w) (heap w) 0%nat 0%float = Return 2 s ->
                    find_by_id (fst s) 2 = Some 0%nat
                    /\ find_by_id (fst s) 1 = Some 1%nat
                    /\ (User.id <$> snd s !! 0%nat) = Some 2) as Hall.
  { intros s Hs.
    destruct (save_then_find_by_id _ _ _ _ _ _ Hs) as (H1 & H2 & H3 & _).
    split; [exact H1|]. split; [|exact H2].
    rewrite H3 by discriminate. reflexivity. }
  split; [vm_compute; reflexivity|]. apply Hall. vm_compute. reflexivity.
Defined.

(** Where a successful [save] puts the entry: a new identifier goes last in
    the order of [find_all], after all entries that were there; an existing
    identifier keeps its place and the number of entries. *)
Theorem save_keeps_insertion_order (self : t) (h : Heap) (user : loc)
    (now : Timestamp) (k : UserId) (s : t * Heap) :
  save self h user now = Return k s ->
  (dict_in k (_users self) = false ->
     find_all (fst s) = find_all self ++ [user]
     /\ dict_keys (_users (fst s)) = dict_keys (_users self) ++ [k])
  /\ (dict_in k (_users self) = true ->
      dict_keys (_users (fst s)) = dict_keys (_users self)
      /\ length (find_all (fst s)) = length (find_all self)).
Proof.
  intros Hs. destruct (save_Return_users _ _ _ _ _ _ Hs) as (Hus & _).
  unfold find_all. rewrite Hus. split; intros Hin.
  - rewrite (dict_set_absent k user _ Hin).
    unfold dict_values, dict_keys. rewrite !map_app. split; reflexivity.
  - rewrite dict_keys_set, Hin. split; [reflexivity|].
    unfold dict_values. rewrite !length_map, dict_set_length, Hin. reflexivity.
Qed.

Lemma save_keeps_insertion_order_witness :
  let w := run [NewUser alice; NewUser bob; Save 1%nat 0%float] (init 1000 0%float) in
  exists s,
    save (repo w) (heap w) 0%nat 0%float = Return 2 s
    /\ find_all (repo w) = [1%nat]
    /\ find_all (fst s) = [1%nat; 0%nat].
Proof.
  intros w. eexists.
  assert (forall s, save (repo w) (heap w) 0%nat 0%float = Return 2 s ->
                    find_all (fst s) = [1%nat; 0%nat]) as Hall.
  { intros s Hs.
    destruct (save_keeps_insertion_order _ _ _ _ _ _ Hs) as [Hnew _].
    destruct (Hnew eq_refl) as [E _]. exact E. }
  split; [vm_compute; reflexivity|]. split; [reflexivity|].
  apply Hall. vm_compute. reflexivity.
Defined.

(** Saving the same object again right after a successful [save] returns
    the same identifier and changes nothing: in a repository reached from
    [__init__], [save] is idempotent. *)
Theorem save_twice_same (ops : list Op) (max_users : Z) (t0 now now' : Timestamp)
    (user : loc) (k : UserId) (s : t * Heap) :
  let w := run ops (init max_users t0) in
  save (repo w) (heap w) user now = Return k s ->
  save (fst s) (snd s) user now' = Return k s.
Proof.
  intros w Hs.
  pose proof (reachable_Inv ops max_users t0) as HI. fold w in HI.
  pose proof (inv_next _ HI) as Hnext. unfold next_id in Hnext.
  destruct (heap w !! user) as [u|] eqn:Hu;
    [|unfold save in Hs; rewrite Hu in Hs; discriminate].
  assert (user < length (heap w))%nat as Hlt by (eapply lookup_lt_Some; eauto).
  assert (forall r h' u2,
            h' !! user = Some u2 -> User.id u2 = k -> k <> 0 ->
            User.__post_init__ u2 = None ->
            _users r = dict_set k user (_users r) ->
            dict_in k (_users r) = true ->
            save r h' user now' = Return k (r, h')) as Hagain.
  { intros r h' u2 Hu2 Hid Hk Hv2 Hfix Hin. subst k.
    rewrite (save_keep_id r h' user u2 now' Hu2).
    - rewrite Hv2. unfold set_users. rewrite <- Hfix. now destruct r.
    - unfold at_capacity_and_absent. rewrite Hin. apply andb_false_r.
    - unfold takes_fresh_id. rewrite Hin.
      destruct (Z.eqb_spec (User.id u2) 0); [contradiction | reflexivity]. }
  destruct (at_capacity_and_absent (repo w) u) eqn:Hc.
  { rewrite (save_capacity _ _ _ _ now Hu Hc) in Hs. discriminate. }
  destruct (takes_fresh_id (repo w) u) eqn:Hf.
  - rewrite (save_fresh_id _ _ _ _ now Hu Hc Hf) in Hs.
    destruct (User.__post_init__ _) eqn:Hv; [discriminate|].
    injection Hs as <- <-. simpl.
    apply Hagain with (u2 := User.set_id (_next_id (repo w)) u).
    + now apply list_lookup_insert_eq.
    + reflexivity.
    + lia.
    + exact Hv.
    + simpl. now rewrite dict_set_idem.
    + simpl. unfold dict_in. now rewrite dict_get_set_eq.
  - rewrite (save_keep_id _ _ _ _ now Hu Hc Hf) in Hs.
    destruct (User.__post_init__ u) eqn:Hv; [discriminate|].
    injection Hs as <- <-. simpl.
    unfold takes_fresh_id in Hf. apply orb_false_iff in Hf. destruct Hf as [Hz _].
    apply Z.eqb_neq in Hz.
    apply Hagain with (u2 := u); trivial.
    + simpl. now rewrite dict_set_idem.
    + simpl. unfold dict_in. now rewrite dict_get_set_eq.
Qed.

Lemma save_twice_same_witness :
  let w := run [NewUser alice] (init 1000 0%float) in
  exists s,
    save (repo w) (heap w) 0%nat 0%float = Return 1 s
    /\ save (fst s) (snd s) 0%nat 1%float = Return 1 s.
Proof.
  intros w. eexists.
  assert (forall s, save (repo w) (heap w) 0%nat 0%float = Return 1 s ->
                    save (fst s) (snd s) 0%nat 1%float = Return 1 s) as Hall.
  { intros s. exact (save_twice_same [NewUser alice] 1000 0%float 0%float 1%float 0%nat 1 s). }
  split; [vm_compute; reflexivity|]. apply Hall. vm_compute. reflexivity.
Defined.

(** [delete] in a repository reached from [__init__]: it reports whether the
    identifier was a key, afterwards the identifier finds nothing, every
    other identifier finds what it found before, the counter is untouched
    and the number of entries drops by one exactly when it reported true. *)
Theorem delete_then_find_by_id
    (ops : list Op) (max_users : Z) (t0 : Timestamp) (k : UserId) :
  let w := run ops (init max_users t0) in
  let r := snd (delete (repo w) k) in
  (fst (delete (repo w) k) = true <-> In k (keys w))
  /\ find_by_id r k = None
  /\ (forall k', k' <> k -> find_by_id r k' = find_by_id (repo w) k')
  /\ _next_id r = _next_id (repo w)
  /\ len (_users r)
     = len (_users (repo w)) - (if fst (delete (repo w) k) then 1 else 0).
Proof.
  intros w r. pose proof (reachable_Inv ops max_users t0) as HI. fold w in HI.
  subst r. unfold delete, find_by_id, keys.
  destruct (dict_in k (_users (repo w))) eqn:Hin; simpl.
  - split; [split; [intros _; now apply dict_in_keys | reflexivity]|].
    split; [apply dict_get_None_keys, dict_del_removes, (inv_nodup _ HI)|].
    split; [intros k' Hk'; now apply dict_get_del_ne|].
    split; [reflexivity|].
    pose proof (dict_del_length k _ Hin). unfold len. lia.
  - split; [split; [discriminate | intros Hk; apply dict_in_keys in Hk; congruence]|].
    split; [now apply dict_get_None_keys, dict_in_false_keys|].
    split; [reflexivity|]. split; [reflexivity | lia].
Qed.

(** ** The status distribution *)

Lemma dict_set_sum (k : string) (v : Z) (d : list (string * Z)) :
  sumZ (map snd (dict_set k v d))
  = sumZ (map snd d) - default 0 (dict_get k d) + v.
Proof.
  induction d as [|[k' v'] d IH]; simpl; [lia|].
  destruct (decide (k = k')); simpl; [lia|]. rewrite IH. lia.
Qed.

Lemma dict_set_Forall {V} (P : V -> Prop) (k : string) (v : V)
    (d : list (string * V)) :
  P v -> Forall (fun kv => P (snd kv)) d ->
  Forall (fun kv => P (snd kv)) (dict_set k v d).
Proof.
  intros Hv. induction 1 as [|[k' v'] d Hx Hd IH]; simpl.
  - repeat constructor. exact Hv.
  - destruct (decide (k = k')); constructor; trivial.
Qed.

Lemma dict_get_Forall {V} (P : V -> Prop) (k : string) (v : V)
    (d : list (string * V)) :
  Forall (fun kv => P (snd kv)) d -> dict_get k d = Some v -> P v.
Proof.
  induction 1 as [|[k' v'] d Hx Hd IH]; simpl; [discriminate|].
  destruct (decide (k = k')); [intros [= <-]; exact Hx | exact IH].
Qed.

Lemma bump_positive (key : string) (d : list (string * Z)) :
  Forall (fun kv => 1 <= snd kv) d -> Forall (fun kv => 1 <= snd kv) (bump key d).
Proof.
  intros Hd. unfold bump. apply dict_set_Forall; [|exact Hd].
  destruct (dict_get key d) as [v|] eqn:E; simpl; [|lia].
  pose proof (dict_get_Forall (fun v => 1 <= v) key v d Hd E). simpl in *. lia.
Qed.

Lemma status_counts_loop (users : list User.t) (a : acc) :
  List.NoDup (dict_keys (status_counts a)) ->
  Forall (fun kv => 1 <= snd kv) (status_counts a) ->
  let d := status_counts (fold_left loop_body users a) in
  List.NoDup (dict_keys d)
  /\ Forall (fun kv => 1 <= snd kv) d
  /\ sumZ (map snd d) = sumZ (map snd (status_counts a)) + len users.
Proof.
  revert a. induction users as [|u users IH]; intros a Hnd Hpos; simpl.
  - repeat split; trivial. unfold len. simpl. lia.
  - assert (status_counts (loop_body a u)
            = bump (UserStatus.name (User.status u)) (status_counts a)) as E
      by (unfold loop_body; destruct (User.age u); reflexivity).
    destruct (IH (loop_body a u)) as (H1 & H2 & H3).
    + rewrite E. unfold bump. now apply dict_set_NoDup.
    + rewrite E. now apply bump_positive.
    + repeat split; trivial. rewrite H3, E. unfold bump.
      rewrite dict_set_sum, len_cons. lia.
Qed.

(** Whenever the two divisions of [get_statistics] have a result (the mean
    age and the utilisation are within the range of a float and the capacity
    is not zero), it returns a result in which the status distribution has
    one entry per status that occurs, each count is at least 1, and the
    counts add up to [total_users]. *)
Theorem status_distribution_adds_up (self : t) (h : Heap) (now : Timestamp)
    (users : list User.t) :
  deref_all h (find_all self) = Some users ->
  statistics_defined self users ->
  exists stats distribution,
    get_statistics self h now = Return stats tt
    /\ dict_get "status_distribution" stats = Some (counts_dict distribution)
    /\ dict_get "total_users" stats = Some (VInt (sumZ (map snd distribution)))
    /\ List.NoDup (dict_keys distribution)
    /\ Forall (fun kv => 1 <= snd kv) distribution
    /\ (forall key, In key (dict_keys distribution) <-> 1 <= count_status key users).
Proof.
  intros Hd (Hmean & Hmax & Hutil).
  rewrite (get_statistics_eq self h now users Hd).
  apply mean_age_inr_iff in Hmean. destruct Hmean as [average ->].
  rewrite (truediv_in_range _ _ Hmax Hutil).
  destruct (status_counts_loop users acc0) as (Hnd & Hpos & Hsum);
    [constructor | constructor |].
  simpl in Hsum. do 2 eexists. split; [reflexivity|].
  split; [reflexivity|]. split; [rewrite Hsum; reflexivity|].
  split; [exact Hnd|]. split; [exact Hpos|].
  intros key. pose proof (stats_loop_status key users acc0) as Hc.
  change (default 0 (dict_get key (status_counts acc0))) with 0 in Hc.
  rewrite Z.add_0_l in Hc. rewrite <- Hc.
  destruct (dict_get key (status_counts (fold_left loop_body users acc0)))
    as [v|] eqn:E; simpl.
  - pose proof (dict_get_Forall (fun v => 1 <= v) key v _ Hpos E) as Hv.
    split; [intros _; exact Hv|]. intros _. apply dict_in_keys.
    unfold dict_in. now rewrite E.
  - split; [|lia]. intros Hin. apply dict_in_keys in Hin.
    unfold dict_in in Hin. rewrite E in Hin. discriminate.
Qed.

Lemma status_distribution_adds_up_witness :
  let w := run [NewUser alice; Save 0%nat 0%float; NewUser bob; Save 1%nat 0%float;
                Assign 1%nat (User.update_status UserStatus.ACTIVE
                                (User.set_id 2 bob))]
             (init 1000 0%float) in
  exists stats distribution,
    get_statistics (repo w) (heap w) 1%float = Return stats tt
    /\ dict_get "status_distribution" stats = Some (counts_dict distribution)
    /\ dict_get "total_users" stats = Some (VInt (sumZ (map snd distribution)))
    /\ Forall (fun kv => 1 <= snd kv) distribution.
Proof.
  intros w.
  destruct (status_distribution_adds_up (repo w) (heap w) 1%float
              [User.set_id 1 alice;
               User.update_status UserStatus.ACTIVE (User.set_id 2 bob)])
    as (stats & d & Hs & Hd & Ht & _ & Hp & _);
    [reflexivity
    |split; [right; vm_compute; reflexivity
            |split; [vm_compute; discriminate | vm_compute; reflexivity]]
    |].
  exists stats, d. auto.
Defined.

(** ** [fibonacci_generator] *)

Lemma fib_step (k : nat) : fib (S (S k)) = fib (S k) + fib k.
Proof. reflexivity. Qed.

Lemma subscript_fibs (m : nat) (i : Z) :
  0 <= i < Z.of_nat m ->
  subscript (map fib (seq 0 m)) i = inr (fib (Z.to_nat i)).
Proof.
  intros Hi. unfold subscript, len. rewrite length_map, length_seq.
  destruct (Z.ltb_spec i 0); [lia|].
  destruct (Z.ltb_spec i 0); [lia|].
  destruct (Z.leb_spec (Z.of_nat m) i); [lia|]. simpl.
  rewrite list_lookup_fmap, lookup_seq_lt by lia. reflexivity.
Qed.

Lemma fibonacci_loop_spec (k m : nat) :
  (2 <= m)%nat ->
  fibonacci_loop (map (fun j => Z.of_nat m + Z.of_nat j) (seq 0 k))
                 (map fib (seq 0 m))
  = inr (map fib (seq 0 (m + k))).
Proof.
  revert m. induction k as [|k IH]; intros m Hm.
  - simpl. now rewrite Nat.add_0_r.
  - rewrite <- cons_seq. simpl map. cbn [fibonacci_loop].
    rewrite !subscript_fibs by lia.
    replace (Z.to_nat (Z.of_nat m + Z.of_nat 0 - 1)) with (S (m - 2)) by lia.
    replace (Z.to_nat (Z.of_nat m + Z.of_nat 0 - 2)) with (m - 2)%nat by lia.
    rewrite <- fib_step.
    replace (S (S (m - 2))) with m by lia.
    replace (map fib (seq 0 m) ++ [fib m]) with (map fib (seq 0 (S m)))
      by (rewrite seq_S, map_app; reflexivity).
    rewrite <- seq_shift, List.map_map.
    replace (m + S k)%nat with (S m + k)%nat by lia.
    rewrite <- (IH (S m)) by lia. f_equal. apply map_ext. intros j. lia.
Qed.

Lemma fibonacci_generator_eq (n : Z) :
  fibonacci_generator n =
    if n <? 0 then
      inl (Known (ValueError
        ("Cannot generate Fibonacci sequence for negative count: "
         +:+ pretty n)))
    else inr (map fib (seq 0 (Z.to_nat n))).
Proof.
  unfold fibonacci_generator. destruct (Z.ltb_spec n 0); [reflexivity|].
  destruct (Z.eqb_spec n 0) as [->|?]; [reflexivity|].
  destruct (Z.eqb_spec n 1) as [->|?]; [reflexivity|].
  unfold py_range.
  pose proof (fibonacci_loop_spec (Z.to_nat (n - 2)) 2) as E.
  replace (2 + Z.to_nat (n - 2))%nat with (Z.to_nat n) in E by lia.
  rewrite <- E by lia. reflexivity.
Qed.

(** [fibonacci_generator(n)] raises [ValueError] for a negative [n] and
    otherwise returns the list F(0), ..., F(n-1) of the first [n] Fibonacci
    numbers; the subscripts of its loop are never out of range. *)
Theorem fibonacci_generator_spec (n : Z) :
  fibonacci_generator n =
    if n <? 0 then
      inl (Known (ValueError
        ("Cannot generate Fibonacci sequence for negative count: "
         +:+ pretty n)))
    else inr (map fib (seq 0 (Z.to_nat n))).
Proof. apply fibonacci_generator_eq. Qed.

(** The result for [n + 1] terms is the result for [n] terms with one number
    appended, and from the third on each number is the sum of the two
    before it. *)
Theorem fibonacci_generator_grows (n : Z) (l : list Z) :
  0 <= n ->
  fibonacci_generator n = inr l ->
  Z.of_nat (length l) = n
  /\ (exists x, fibonacci_generator (n + 1) = inr (l ++ [x]))
  /\ (forall i a b, l !! i = Some a -> l !! S i = Some b ->
        l !! S (S i) = None \/ l !! S (S i) = Some (b + a)).
Proof.
  intros Hn. rewrite !fibonacci_generator_eq.
  destruct (Z.ltb_spec n 0); [lia|]. destruct (Z.ltb_spec (n + 1) 0); [lia|].
  intros [= <-]. rewrite length_map, length_seq. split; [lia|]. split.
  - exists (fib (Z.to_nat n)).
    replace (Z.to_nat (n + 1)) with (S (Z.to_nat n)) by lia.
    now rewrite seq_S, map_app.
  - intros i a b. rewrite !list_lookup_fmap.
    destruct (Nat.lt_ge_cases (S (S i)) (Z.to_nat n)) as [Hlt|Hge].
    + rewrite !lookup_seq_lt by lia. simpl. intros [= <-] [= <-]. right.
      reflexivity.
    + intros _ _. left. rewrite lookup_seq_ge by lia. reflexivity.
Qed.

Lemma fibonacci_generator_grows_witness :
  fibonacci_generator 8 = inr [0; 1; 1; 2; 3; 5; 8; 13]
  /\ exists x, fibonacci_generator 9 = inr ([0; 1; 1; 2; 3; 5; 8; 13] ++ [x]).
Proof.
  assert (fibonacci_generator 8 = inr [0; 1; 1; 2; 3; 5; 8; 13]) as E
    by reflexivity.
  split; [exact E|].
  destruct (fibonacci_generator_grows 8 _ ltac:(lia) E) as (_ & Hx & _).
  exact Hx.
Defined.

(** ** The outcomes of [create_user_async] *)

Lemma deref_all_agree (h h' : Heap) (ls : list loc) :
  Forall (fun l => (l < length h)%nat) ls ->
  (forall l, (l < length h)%nat -> h' !! l = h !! l) ->
  deref_all h' ls = deref_all h ls.
Proof.
  intros Hv Hag. induction Hv as [|l ls Hl _ IH]; simpl; [reflexivity|].
  now rewrite IH, (Hag l Hl).
Qed.

Lemma deref_all_Some_valid (h : Heap) (ls : list loc) (users : list User.t) :
  deref_all h ls = Some users -> Forall (fun l => (l < length h)%nat) ls.
Proof.
  revert users. induction ls as [|l ls IH]; intros users; simpl; [constructor|].
  destruct (h !! l) eqn:E; [|discriminate].
  destruct (deref_all h ls); [|discriminate]. intros _.
  constructor; [eapply lookup_lt_Some; eauto | eauto].
Qed.

Lemma deref_all_snoc (h : Heap) (ls : list loc) (l : loc)
    (users : list User.t) (u : User.t) :
  deref_all h ls = Some users -> h !! l = Some u ->
  deref_all h (ls ++ [l]) = Some (users ++ [u]).
Proof.
  revert users. induction ls as [|l0 ls IH]; intros users; simpl.
  - intros [= <-] ->. reflexivity.
  - destruct (h !! l0); [|discriminate].
    destruct (deref_all h ls) as [us|]; [|discriminate].
    intros [= <-] Hl. now rewrite (IH us eq_refl Hl).
Qed.

Lemma first_duplicate_find (h : Heap) (email : string) (ls : list loc)
    (users : list User.t) :
  deref_all h ls = Some users ->
  UserService.first_duplicate h email ls
  = Some (List.find (fun u => String.eqb (lower (User.email u)) (lower email))
                    users).
Proof.
  revert users. induction ls as [|l ls IH]; intros users; simpl.
  - intros [= <-]. reflexivity.
  - destruct (h !! l) as [u|]; [|discriminate].
    destruct (deref_all h ls) as [us|]; [|discriminate].
    intros [= <-]. simpl. destruct (String.eqb _ _); [reflexivity | auto].
Qed.

Lemma Inv_heap (h h' : Heap) (r : t) :
  Inv (mkWorld h r) -> (length h <= length h')%nat -> Inv (mkWorld h' r).
Proof.
  intros [Hnd Hk Hn Hr Hc] Hle. constructor; trivial.
  unfold refs_valid in *. simpl in *. eapply Forall_impl; [exact Hr|].
  simpl. intros; lia.
Qed.

Lemma NoDup_snoc {A} (l : list A) (x : A) :
  List.NoDup l -> ~ In x l -> List.NoDup (l ++ [x]).
Proof.
  intros Hnd Hx. rewrite <- (rev_involutive (l ++ [x])). apply NoDup_rev.
  rewrite rev_app_distr. simpl. constructor.
  - now rewrite <- in_rev.
  - now apply NoDup_rev.
Qed.

Section Outcomes.
Context {L : Type} `{Logger.t L}.
Implicit Types self : UserService.t InMemoryUserRepository.t L.

Lemma create_user_async_halves self (h : Heap) (name email : string)
    (age : option Z) (now : Timestamp) :
  UserService.create_user_async self h name email age now
  = create_user_async_after_await
      (create_user_async_before_await self name email age now)
      h name email age now.
Proof. reflexivity. Qed.

(** The four ways the second half of [create_user_async] can end. *)
Lemma after_await_cases self (h : Heap) (name email : string)
    (age : option Z) (now : Timestamp) (users : list User.t) :
  let r := UserService._repository self in
  let out := create_user_async_after_await self h name email age now in
  let fresh id :=
    User.mk id name email age UserStatus.ACTIVE UserPreferences.default now [] in
  let differ :=
    Forall (fun u => lower (User.email u) <> lower email) users in
  Inv (mkWorld h r) ->
  deref_all h (find_all r) = Some users ->
  (exists u, In u users /\ lower (User.email u) = lower email
     /\ out = Raise (UserService.duplicate_email_error email u now) (self, h))
  \/ (differ /\ ~ valid_user_data email age
      /\ exists msg, out = Raise (ValueError msg) (self, h))
  \/ (differ /\ valid_user_data email age /\ _max_users r <= len (_users r)
      /\ exists lg,
           out = Raise (capacity_error r now)
                   (UserService.set_logger lg (UserService.set_repository r self),
                    h ++ [fresh 0]))
  \/ (differ /\ valid_user_data email age /\ len (_users r) < _max_users r
      /\ exists lg,
           out = Return (length h)
                   (UserService.set_logger lg
                      (UserService.set_repository
                         (mk (_users r ++ [(_next_id r, length h)])
                             (_next_id r + 1) (_max_users r) (_created_at r))
                         self),
                    h ++ [fresh (_next_id r)])).
Proof.
  intros r out fresh differ HI Hd. subst out.
  unfold create_user_async_after_await. simpl. fold r.
  rewrite (first_duplicate_find h email _ users Hd).
  destruct (List.find _ users) as [u|] eqn:Hfind.
  { left. apply find_some in Hfind. destruct Hfind as [Hin He].
    apply String.eqb_eq in He. eauto. }
  right.
  assert differ as Hdiff.
  { apply List.Forall_forall. intros u Hu.
    pose proof (find_none _ _ Hfind u Hu) as E. simpl in E.
    now apply String.eqb_neq. }
  unfold User.__init__. fold (fresh 0).
  pose proof (post_init_None (fresh 0)) as Hvalid. simpl in Hvalid.
  destruct (User.__post_init__ (fresh 0)) as [e|] eqn:Hv.
  { left. split; [exact Hdiff|]. split.
    - intros Hok. apply Hvalid in Hok. discriminate.
    - destruct (post_init_ValueError _ _ Hv) as [msg ->]. eauto. }
  right. assert (valid_user_data email age) as Hok by now apply Hvalid.
  assert ((h ++ [fresh 0]) !! length h = Some (fresh 0)) as Hu
    by (rewrite lookup_app_r, Nat.sub_diag by lia; reflexivity).
  assert (dict_in (K := UserId) 0 (_users r) = false) as Hzero.
  { apply dict_in_false_keys. intros Hin.
    destruct (key_not_zero _ 0 HI Hin). congruence. }
  assert (takes_fresh_id r (fresh 0) = true) as Hf by reflexivity.
  assert (at_capacity_and_absent r (fresh 0)
          = (_max_users r <=? len (_users r))) as Hcap.
  { unfold at_capacity_and_absent. change (User.id (fresh 0)) with 0.
    rewrite Hzero. apply andb_true_r. }
  unfold alloc.
  destruct (Z.leb_spec (_max_users r) (len (_users r))) as [Hfull|Hroom].
  - left. split; [exact Hdiff|]. split; [exact Hok|]. split; [exact Hfull|].
    rewrite (save_capacity r _ _ (fresh 0) now Hu Hcap). eauto.
  - right. split; [exact Hdiff|]. split; [exact Hok|]. split; [exact Hroom|].
    rewrite (save_fresh_id r _ _ (fresh 0) now Hu Hcap Hf).
    rewrite post_init_set_id, Hv.
    pose proof (next_id_absent _ HI) as Hnew. unfold next_id in Hnew.
    simpl in Hnew. fold r in Hnew.
    rewrite (dict_set_absent _ _ _ Hnew).
    rewrite insert_app_r_alt, Nat.sub_diag by lia. simpl.
    rewrite alter_app_r_alt, Nat.sub_diag by lia. simpl.
    eexists. reflexivity.
Qed.
End Outcomes.

Section OutcomeTheorems.
Context {L : Type} `{Logger.t L}.
Implicit Types self : UserService.t InMemoryUserRepository.t L.

(** On a repository reached from [__init__] in which no stored email equals
    the requested one in lower case, [create_user_async] with valid data and
    room in the store returns a new object holding exactly the given name,
    email and age, status ACTIVE and the counter's value as identifier; the
    repository finds it under that identifier, lists it last, and advances
    the counter by one; no other object changes. *)
Theorem create_user_async_creates (ops : list Op) (max_users : Z)
    (t0 now : Timestamp) self (name email : string) (age : option Z)
    (users : list User.t) :
  let w := run ops (init max_users t0) in
  UserService._repository self = repo w ->
  deref_all (heap w) (find_all (repo w)) = Some users ->
  Forall (fun u => lower (User.email u) <> lower email) users ->
  valid_user_data email age ->
  len (_users (repo w)) < max_users ->
  exists svc',
    UserService.create_user_async self (heap w) name email age now
    = Return (length (heap w))
        (svc',
         heap w ++ [User.mk (next_id w) name email age UserStatus.ACTIVE
                      UserPreferences.default now []])
    /\ find_by_id (UserService._repository svc') (next_id w)
       = Some (length (heap w))
    /\ find_all (UserService._repository svc')
       = find_all (repo w) ++ [length (heap w)]
    /\ _next_id (UserService._repository svc') = next_id w + 1.
Proof.
  intros w Hrepo Hd Hdiff Hok Hroom.
  pose proof (reachable_Inv ops max_users t0) as HI. fold w in HI.
  assert (_max_users (repo w) = max_users) as Hmax by apply run_max_users.
  rewrite create_user_async_halves.
  set (self1 := create_user_async_before_await self name email age now).
  clearbody w. destruct w as [hw rw]. unfold next_id in *.
  cbn [heap repo] in *. subst rw.
  assert (UserService._repository self1 = UserService._repository self)
    as Hrepo1 by reflexivity.
  destruct (after_await_cases self1 hw name email age now users HI Hd)
    as [(u & Hin & He & _)|[(_ & Hbad & _)|[(_ & _ & Hfull & _)|(_ & _ & _ & lg & Hout)]]].
  - rewrite List.Forall_forall in Hdiff. destruct (Hdiff u Hin He).
  - contradiction.
  - rewrite Hrepo1 in Hfull. lia.
  - rewrite Hout, Hrepo1. eexists. split; [reflexivity|].
    cbn [UserService._repository UserService.set_logger
         UserService.set_repository].
    unfold find_by_id, find_all, dict_values. cbn [_users _next_id].
    rewrite map_app. split; [|split; reflexivity].
    pose proof (next_id_absent _ HI) as Hnew. unfold next_id in Hnew.
    cbn [repo] in Hnew. rewrite <- (dict_set_absent _ (length hw) _ Hnew).
    apply dict_get_set_eq.
Qed.

(** On a repository reached from [__init__] in which no stored email equals
    the requested one in lower case, [create_user_async] with invalid data
    raises the [ValueError] of the [User] constructor and changes neither
    repository nor objects; with valid data and a full store it raises the
    repository error CAPACITY_EXCEEDED, the repository and its counter are
    unchanged and every object existing before is untouched. *)
Theorem create_user_async_rejects (ops : list Op) (max_users : Z)
    (t0 now : Timestamp) self (name email : string) (age : option Z)
    (users : list User.t) :
  let w := run ops (init max_users t0) in
  UserService._repository self = repo w ->
  deref_all (heap w) (find_all (repo w)) = Some users ->
  Forall (fun u => lower (User.email u) <> lower email) users ->
  (~ valid_user_data email age ->
   exists msg svc',
     UserService.create_user_async self (heap w) name email age now
     = Raise (ValueError msg) (svc', heap w)
     /\ UserService._repository svc' = repo w)
  /\ (valid_user_data email age -> max_users <= len (_users (repo w)) ->
      exists e svc' h',
        UserService.create_user_async self (heap w) name email age now
        = Raise (RepositoryError e) (svc', h')
        /\ ApplicationError.error_code e = "CAPACITY_EXCEEDED"
        /\ UserService._repository svc' = repo w
        /\ forall l, (l < length (heap w))%nat -> h' !! l = heap w !! l).
Proof.
  intros w Hrepo Hd Hdiff.
  pose proof (reachable_Inv ops max_users t0) as HI. fold w in HI.
  assert (_max_users (repo w) = max_users) as Hmax by apply run_max_users.
  rewrite create_user_async_halves.
  set (self1 := create_user_async_before_await self name email age now).
  clearbody w. destruct w as [hw rw]. unfold next_id in *.
  cbn [heap repo] in *. subst rw.
  assert (UserService._repository self1 = UserService._repository self)
    as Hrepo1 by reflexivity.
  destruct (after_await_cases self1 hw name email age now users HI Hd)
    as [(u & Hin & He & _)|[(_ & Hbad & msg & Hout)|[(_ & Hok & Hfull & lg & Hout)
        |(_ & Hok & Hroom & _)]]].
  - rewrite List.Forall_forall in Hdiff. destruct (Hdiff u Hin He).
  - split; [|intros Hok; contradiction].
    intros _. rewrite Hout. exists msg, self1. split; reflexivity.
  - split; [intros Hbad; contradiction|].
    intros _ _. rewrite Hout. do 3 eexists. split; [reflexivity|].
    split; [reflexivity|]. split; [reflexivity|].
    intros l Hl. now apply lookup_app_l.
  - split; [intros Hbad; contradiction|].
    intros _ Hfull. rewrite Hrepo1 in Hroom. lia.
Qed.
End OutcomeTheorems.

Lemma create_user_async_creates_witness :
  let svc :=
    UserService.__init__ (InMemoryUserRepository.__init__ 1000 0%float)
      (StructuredLogger.__init__ LogLevel.INFO) 0%float in
  exists svc',
    UserService.create_user_async svc [] "Alice" "a@b.com" (Some 28) 1%float
    = Return 0%nat
        (svc',
         [User.mk 1 "Alice" "a@b.com" (Some 28) UserStatus.ACTIVE
            UserPreferences.default 1%float []]).
Proof.
  intros svc.
  destruct (create_user_async_creates [] 1000 0%float 1%float svc "Alice" "a@b.com"
              (Some 28) [])
    as (svc' & Hc & _).
  - reflexivity.
  - reflexivity.
  - constructor.
  - apply (post_init_None (User.mk 0 "Alice" "a@b.com" (Some 28)
                             UserStatus.ACTIVE UserPreferences.default 1%float [])).
    reflexivity.
  - vm_compute. reflexivity.
  - exists svc'. exact Hc.
Defined.

Lemma create_user_async_rejects_witness :
  let svc :=
    UserService.__init__ (InMemoryUserRepository.__init__ 0 0%float)
      (StructuredLogger.__init__ LogLevel.INFO) 0%float in
  (exists msg svc',
     UserService.create_user_async svc [] "Alice" "alice" None 1%float
     = Raise (ValueError msg) (svc', []))
  /\ (exists e svc' h',
        UserService.create_user_async svc [] "Alice" "a@b.com" None 1%float
        = Raise (RepositoryError e) (svc', h')
        /\ ApplicationError.error_code e = "CAPACITY_EXCEEDED").
Proof.
  intros svc. split.
  - destruct (create_user_async_rejects [] 0 0%float 1%float svc "Alice" "alice" None [])
      as [Hbad _]; [reflexivity | reflexivity | constructor |].
    destruct Hbad as (msg & svc' & Hr & _).
    + intros Hv.
      apply (post_init_None (User.mk 0 "Alice" "alice" None UserStatus.ACTIVE
                               UserPreferences.default 1%float [])) in Hv.
      discriminate.
    + exists msg, svc'. exact Hr.
  - destruct (create_user_async_rejects [] 0 0%float 1%float svc "Alice" "a@b.com" None [])
      as [_ Hfull]; [reflexivity | reflexivity | constructor |].
    destruct Hfull as (e & svc' & h' & Hr & Hcode & _).
    + apply (post_init_None (User.mk 0 "Alice" "a@b.com" None UserStatus.ACTIVE
                               UserPreferences.default 1%float [])).
      reflexivity.
    + vm_compute. discriminate.
    + exists e, svc', h'. split; assumption.
Defined.

(** ** Email uniqueness under interleaved calls *)

Section Interleaving.
Context {L : Type} `{Logger.t L}.
Implicit Types st : UserService.t InMemoryUserRepository.t L * Heap.

Lemma turn_keeps_invariants st (t : Turn) :
  Inv (mkWorld (snd st) (UserService._repository (fst st))) ->
  emails_unique (snd st) (UserService._repository (fst st)) ->
  ids_match (snd st) (UserService._repository (fst st)) ->
  let st' := turn st t in
  Inv (mkWorld (snd st') (UserService._repository (fst st')))
  /\ emails_unique (snd st') (UserService._repository (fst st'))
  /\ ids_match (snd st') (UserService._repository (fst st'))
  /\ _max_users (UserService._repository (fst st'))
     = _max_users (UserService._repository (fst st)).
Proof.
  destruct st as [self h]. cbn [fst snd]. intros HI (users & Hd & Hnd) Hids.
  destruct t as [name email age now|name email age now]; cbn [turn fst snd].
  { split; [exact HI|]. split; [exists users; auto|].
    split; [exact Hids | reflexivity]. }
  set (r := UserService._repository self) in *.
  pose proof (deref_all_Some_valid _ _ _ Hd) as Hvalid.
  assert (forall x l, (l < length h)%nat -> (h ++ [x]) !! l = h !! l) as Hag
    by (intros; now apply lookup_app_l).
  destruct (after_await_cases self h name email age now users HI Hd)
    as [(u & _ & _ & ->)|[(_ & _ & msg & ->)|[(_ & _ & _ & lg & ->)
        |(Hdiff & _ & Hroom & lg & ->)]]]; cbn [fst snd].
  - split; [exact HI|]. split; [exists users; auto|].
    split; [exact Hids | reflexivity].
  - split; [exact HI|]. split; [exists users; auto|].
    split; [exact Hids | reflexivity].
  - cbn [UserService._repository UserService.set_logger
         UserService.set_repository]. fold r.
    split; [eapply Inv_heap; [exact HI | rewrite length_app; simpl; lia]|].
    split; [|split; [|reflexivity]].
    + exists users. split; [|exact Hnd].
      rewrite <- Hd. apply deref_all_agree; [exact Hvalid | apply Hag].
    + intros k l Hin. destruct (Hids k l Hin) as (u & Hu & Hk).
      exists u. split; [|exact Hk]. now apply lookup_app_l_Some.
  - cbn [UserService._repository UserService.set_logger
         UserService.set_repository]. fold r.
    set (x := User.mk (_next_id r) name email age UserStatus.ACTIVE
                UserPreferences.default now []).
    destruct HI as [Hk_nd Hk Hn Hr Hc].
    unfold keys, next_id, refs_valid, find_all in *. cbn [heap repo] in *.
    fold r in Hk_nd, Hk, Hn, Hr, Hc.
    assert (~ In (_next_id r) (dict_keys (_users r))) as Hnew.
    { intros Hin. rewrite List.Forall_forall in Hk. specialize (Hk _ Hin). lia. }
    split; [|split; [|split; [|reflexivity]]].
    + constructor; unfold keys, next_id, refs_valid, find_all;
        cbn [heap repo _users _next_id _max_users].
      * unfold dict_keys. rewrite map_app. now apply NoDup_snoc.
      * unfold dict_keys. rewrite map_app. apply Forall_app. split.
        -- eapply Forall_impl; [exact Hk|]. simpl. intros; lia.
        -- repeat constructor; simpl; lia.
      * lia.
      * unfold dict_values. rewrite map_app, length_app. apply Forall_app. split.
        -- eapply Forall_impl; [exact Hr|]. simpl. intros; lia.
        -- repeat constructor. simpl. lia.
      * unfold len in *. fold r in Hroom. rewrite length_app. simpl. lia.
    + exists (users ++ [x]). unfold find_all, dict_values. cbn [_users].
      rewrite !map_app. cbn [map snd]. split.
      * apply deref_all_snoc.
        -- rewrite <- Hd. apply deref_all_agree; [exact Hvalid | apply Hag].
        -- rewrite lookup_app_r, Nat.sub_diag by lia. reflexivity.
      * apply NoDup_snoc; [exact Hnd|]. simpl. intros Hin.
        apply in_map_iff in Hin. destruct Hin as (u & He & Hu).
        rewrite List.Forall_forall in Hdiff. exact (Hdiff u Hu He).
    + intros k l Hin. cbn [_users] in Hin. apply in_app_or in Hin.
      destruct Hin as [Hin|[[= <- <-]|[]]].
      * destruct (Hids k l Hin) as (u & Hu & Hku).
        exists u. split; [|exact Hku]. now apply lookup_app_l_Some.
      * exists x. split; [|reflexivity].
        rewrite lookup_app_r, Nat.sub_diag by lia. reflexivity.
Qed.

(** However concurrent [create_user_async] calls interleave on one event
    loop, each running without interruption up to its [await] and from
    there to its end, starting from a fresh repository: the stored users
    never share an email up to case, every stored user carries the
    identifier it is stored under, and the number of stored users stays
    within a non-negative capacity.  A call without concurrency is its two
    halves in a row. *)
Theorem interleaved_creations_keep_emails_unique
    (turns : list Turn) (max_users : Z) (t0 now0 : Timestamp) (logger : L) :
  let st :=
    schedule turns
      (UserService.__init__ (InMemoryUserRepository.__init__ max_users t0)
         logger now0, []) in
  emails_unique (snd st) (UserService._repository (fst st))
  /\ ids_match (snd st) (UserService._repository (fst st))
  /\ (0 <= max_users ->
      len (_users (UserService._repository (fst st))) <= max_users)
  /\ (forall self h name email age now,
        UserService.create_user_async self h name email age now
        = create_user_async_after_await
            (fst (turn (self, h) (Begin name email age now)))
            h name email age now).
Proof.
  intros st.
  assert (forall st0 : UserService.t InMemoryUserRepository.t L * Heap,
            Inv (mkWorld (snd st0) (UserService._repository (fst st0))) ->
            emails_unique (snd st0) (UserService._repository (fst st0)) ->
            ids_match (snd st0) (UserService._repository (fst st0)) ->
            let st1 := schedule turns st0 in
            Inv (mkWorld (snd st1) (UserService._repository (fst st1)))
            /\ emails_unique (snd st1) (UserService._repository (fst st1))
            /\ ids_match (snd st1) (UserService._repository (fst st1))
            /\ _max_users (UserService._repository (fst st1))
               = _max_users (UserService._repository (fst st0))) as Hrun.
  { clear st. induction turns as [|t turns IH]; intros st0 HI Hu Hi; simpl.
    - auto.
    - destruct (turn_keeps_invariants st0 t HI Hu Hi) as (HI' & Hu' & Hi' & Hm').
      destruct (IH _ HI' Hu' Hi') as (H1 & H2 & H3 & H4).
      split; [exact H1|]. split; [exact H2|]. split; [exact H3|].
      now rewrite H4. }
  destruct (Hrun (UserService.__init__ (InMemoryUserRepository.__init__ max_users t0)
                    logger now0, []))
    as (HI & Hu & Hi & Hm).
  - apply (init_Inv max_users t0).
  - exists []. split; [reflexivity | constructor].
  - intros k l [].
  - fold st in HI, Hu, Hi, Hm. split; [exact Hu|]. split; [exact Hi|]. split.
    + intros Hpos. pose proof (inv_capacity _ HI) as Hc. cbn [repo] in Hc.
      rewrite Hm in Hc. simpl in Hc. lia.
    + reflexivity.
Qed.
End Interleaving.

(** ** [get_user_statistics] over the in-memory repository *)

(** With an [InMemoryUserRepository] reached from [__init__],
    [get_user_statistics] returns the nine repository statistics followed by
    [service_uptime_seconds] when the mean of the known ages is within the
    range of a float and the capacity is not zero; it lets the
    [OverflowError] of the mean-age division through when the mean is out of
    range, whatever the capacity, and the [ZeroDivisionError] of the
    utilisation division when the mean is in range and the capacity is zero;
    in all cases the repository is left as it was. *)
Theorem get_user_statistics_in_memory {L : Type} `{Logger.t L}
    (ops : list Op) (max_users : Z) (t0 now : Timestamp)
    (self : UserService.t InMemoryUserRepository.t L) :
  let w := run ops (init max_users t0) in
  UserService._repository self = repo w ->
  exists users,
    deref_all (heap w) (find_all (repo w)) = Some users
    /\ (forall average,
          mean_age (known_ages users) = inr average ->
          max_users <> 0 ->
          exists stats svc',
            UserService.get_user_statistics self (heap w) now
            = Return stats svc'
            /\ dict_keys stats
               = ["total_users"; "status_distribution"; "adult_users";
                  "minor_users"; "average_age"; "repository_capacity";
                  "capacity_utilization"; "repository_age_seconds";
                  "next_available_id"; "service_uptime_seconds"]
            /\ dict_get "total_users" stats
               = Some (VInt (len (_users (repo w))))
            /\ dict_get "average_age" stats = Some average
            /\ dict_get "repository_capacity" stats = Some (VInt max_users)
            /\ dict_get "next_available_id" stats = Some (VInt (next_id w))
            /\ dict_get "service_uptime_seconds" stats
               = Some (VFloat (now - UserService._service_started self)%float)
            /\ UserService._repository svc' = repo w)
    /\ (forall average,
          mean_age (known_ages users) = inr average ->
          max_users = 0 ->
          exists svc',
            UserService.get_user_statistics self (heap w) now
            = Raise (ZeroDivisionError "division by zero") svc'
            /\ UserService._repository svc' = repo w)
    /\ (~ mean_age_in_range users ->
        exists svc',
          UserService.get_user_statistics self (heap w) now
          = Raise (OverflowError "integer division result too large for a float")
                  svc'
          /\ UserService._repository svc' = repo w).
Proof.
  intros w Hrepo.
  pose proof (reachable_Inv ops max_users t0) as HI. fold w in HI.
  assert (_max_users (repo w) = max_users) as Hmax by apply run_max_users.
  destruct (deref_all_valid _ _ (inv_refs _ HI)) as [users Hd].
  pose proof (get_statistics_eq (repo w) (heap w) now users Hd) as Hg.
  pose proof (reachable_utilization_in_range w users HI Hd) as Hutil.
  cbv zeta in Hg. rewrite Hmax in Hg, Hutil.
  assert (len users = len (_users (repo w))) as Hlen.
  { unfold len. f_equal. apply deref_all_length in Hd.
    unfold find_all, dict_values in Hd. now rewrite length_map in Hd. }
  exists users. split; [exact Hd|].
  unfold UserService.get_user_statistics.
  cbn [Repository.get_statistics InMemoryUserRepository_Repository
       UserService._repository UserService.set_logger
       UserService._service_started].
  rewrite Hrepo, Hg. split; [|split].
  - intros average -> Hne.
    rewrite (truediv_in_range _ _ Hne (Hutil Hne)).
    do 2 eexists. split; [reflexivity|].
    rewrite <- Hlen. unfold next_id. repeat split.
    cbn [UserService._repository UserService.set_logger]. exact Hrepo.
  - intros average -> ->. simpl. eexists. split; [reflexivity | exact Hrepo].
  - intros Hout. rewrite (mean_age_out_of_range users Hout).
    eexists. split; [reflexivity | exact Hrepo].
Qed.

Lemma get_user_statistics_in_memory_witness :
  let w := run [NewUser alice; Save 0%nat 0%float; NewUser bob; Save 1%nat 0%float]
             (init 1000 0%float) in
  let svc :=
    UserService.__init__ (repo w) (StructuredLogger.__init__ LogLevel.INFO)
      2%float in
  exists stats svc',
    UserService.get_user_statistics svc (heap w) 5%float = Return stats svc'
    /\ dict_get "total_users" stats = Some (VInt 2)
    /\ dict_get "average_age" stats = Some (VFloat 16%float)
    /\ dict_get "service_uptime_seconds" stats = Some (VFloat 3%float).
Proof.
  intros w svc.
  destruct (get_user_statistics_in_memory
              [NewUser alice; Save 0%nat 0%float; NewUser bob; Save 1%nat 0%float]
              1000 0%float 5%float svc eq_refl)
    as (users & Hd & Hret & _).
  vm_compute in Hd. injection Hd as <-.
  destruct (Hret (VFloat 16%float))
    as (stats & svc' & Hs & _ & Ht & Ha & _ & _ & Hu & _);
    [vm_compute; reflexivity | discriminate |].
  exists stats, svc'. split; [exact Hs|]. split; [exact Ht|].
  split; [exact Ha | exact Hu].
Defined.

(** ** [User.to_dict] *)

(** [to_dict] loses nothing: two users with the same dictionary have the
    same fields. *)
Theorem to_dict_injective (u v : User.t) :
  User.to_dict u = User.to_dict v -> u = v.
Proof.
  destruct u as [i1 n1 e1 a1 s1 [t1 b1 l1 z1] c1 m1].
  destruct v as [i2 n2 e2 a2 s2 [t2 b2 l2 z2] c2 m2].
  unfold User.to_dict, UserPreferences._asdict. simpl.
  intros [= -> -> -> Ha Hs -> -> -> -> -> ->].
  assert (a1 = a2) as ->
    by (destruct a1, a2; simpl in Ha; congruence).
  assert (s1 = s2) as -> by (destruct s1, s2; simpl in Hs; congruence).
  reflexivity.
Qed.

Lemma to_dict_injective_witness :
  User.set_id 1 alice = User.mk 1 "Alice" "a@b.com" None UserStatus.PENDING
                          UserPreferences.default 0%float [].
Proof. apply to_dict_injective. reflexivity. Defined.

(** ** What [create_user_async] prints through a [StructuredLogger] *)

Lemma save_Raise_shape (self : t) (h : Heap) (user : loc) now e s :
  save self h user now = Raise e s ->
  (exists a, e = RepositoryError a)
  \/ (exists a, e = ValidationError a
        /\ ApplicationError.error_code a = "INVALID_USER_DATA").
Proof.
  unfold save. destruct (h !! user) as [u|]; [|discriminate].
  destruct (_ && _); [intros [= <- _]; left; eexists; reflexivity|].
  destruct (_ || _); (destruct (User.__post_init__ _); [|discriminate]);
    intros [= <- _]; right; eexists; split; reflexivity.
Qed.

Lemma log_prints (lg : StructuredLogger.t) (level : LogLevel.t)
    (message : string) (kwargs : list (string * PyVal)) (now : Timestamp) :
  StructuredLogger._level_priorities (StructuredLogger._min_level lg)
  <= StructuredLogger._level_priorities level ->
  StructuredLogger.log lg level message kwargs now
  = StructuredLogger.mk (StructuredLogger._min_level lg)
      (StructuredLogger.stdout lg
       ++ [StructuredLogger.mk_entry now (LogLevel.value level) message kwargs]).
Proof.
  intros Hle. unfold StructuredLogger.log.
  destruct (Z.ltb_spec (StructuredLogger._level_priorities level)
              (StructuredLogger._level_priorities (StructuredLogger._min_level lg)));
    [lia | reflexivity].
Qed.

(** With a [StructuredLogger] that lets INFO through, [create_user_async]
    prints "Creating new user" first and never touches the lines printed
    before; a returned user is followed by one INFO line "User created
    successfully" carrying the identifier the repository stores it under; an
    error raised by [save] is followed by one ERROR line "Failed to create
    user"; a duplicate email or a [ValueError] of the constructor prints
    nothing more. *)
Theorem create_user_async_prints
    (self : UserService.t InMemoryUserRepository.t StructuredLogger.t)
    (h : Heap) (name email : string) (age : option Z) (now : Timestamp) :
  let lg := UserService._logger self in
  let first :=
    StructuredLogger.mk_entry now "INFO" "Creating new user"
      [("name", VStr name); ("email", VStr email); ("age", User.opt_int age)] in
  let failed e :=
    StructuredLogger.mk_entry now "ERROR" "Failed to create user"
      [("error", VStr (Exn_str e)); ("name", VStr name); ("email", VStr email)] in
  StructuredLogger._level_priorities (StructuredLogger._min_level lg) <= 1 ->
  match UserService.create_user_async self h name email age now with
  | Return user (svc', _) =>
      exists user_id,
        find_by_id (UserService._repository svc') user_id = Some user
        /\ StructuredLogger.stdout (UserService._logger svc')
           = StructuredLogger.stdout lg
             ++ [first;
                 StructuredLogger.mk_entry now "INFO" "User created successfully"
                   [("user_id", VInt user_id); ("name", VStr name);
                    ("email", VStr email)]]
  | Raise e (svc', _) =>
      StructuredLogger.stdout (UserService._logger svc')
      = StructuredLogger.stdout lg
        ++ first
           :: match e with
              | RepositoryError _ => [failed e]
              | ValidationError a =>
                  if String.eqb (ApplicationError.error_code a) "DUPLICATE_EMAIL"
                  then [] else [failed e]
              | _ => []
              end
  | Wrong => True
  end.
Proof.
  intros lg first failed Hmin.
  assert (forall l : StructuredLogger.t,
            StructuredLogger._min_level l = StructuredLogger._min_level lg ->
            forall level message kwargs,
              1 <= StructuredLogger._level_priorities level ->
              StructuredLogger.stdout
                (StructuredLogger.log l level message kwargs now)
              = StructuredLogger.stdout l
                ++ [StructuredLogger.mk_entry now (LogLevel.value level)
                      message kwargs]) as Hlog.
  { intros l Hl level message kwargs Hlev. rewrite log_prints; [reflexivity|].
    rewrite Hl. lia. }
  set (lg1 := StructuredLogger.log lg LogLevel.INFO "Creating new user"
                [("name", VStr name); ("email", VStr email);
                 ("age", User.opt_int age)] now).
  assert (StructuredLogger.stdout lg1 = StructuredLogger.stdout lg ++ [first])
    as Hfirst by (apply Hlog; [reflexivity | simpl; lia]).
  assert (StructuredLogger._min_level lg1 = StructuredLogger._min_level lg)
    as Hmin1 by (unfold lg1; rewrite log_prints by (simpl; lia); reflexivity).
  unfold UserService.create_user_async.
  cbn [Logger.log StructuredLogger_Logger UserService._logger
       UserService.set_logger UserService._repository Repository.find_all
       Repository.save InMemoryUserRepository_Repository].
  fold lg. fold lg1.
  destruct (UserService.first_duplicate h email _) as [[dup|]|]; [| |exact I].
  { cbn [UserService._logger UserService.set_logger]. rewrite Hfirst.
    reflexivity. }
  unfold User.__init__.
  destruct (User.__post_init__ _) as [e|] eqn:Hv.
  { destruct (post_init_ValueError _ _ Hv) as [msg ->].
    cbn [UserService._logger UserService.set_logger]. rewrite Hfirst.
    reflexivity. }
  unfold alloc.
  destruct (save _ _ _ now) as [k [r2 h2]|e [r2 h2]|] eqn:Hs; [| |exact I].
  - exists k. destruct (save_Return_effect _ _ _ _ _ _ Hs) as (Hfind & _).
    split; [exact Hfind|].
    cbn [UserService._logger UserService.set_logger UserService.set_repository].
    rewrite (Hlog lg1 Hmin1) by (simpl; lia). rewrite Hfirst, <- app_assoc.
    reflexivity.
  - cbn [UserService._logger UserService.set_logger UserService.set_repository].
    rewrite (Hlog lg1 Hmin1) by (simpl; lia). rewrite Hfirst, <- app_assoc.
    destruct (save_Raise_shape _ _ _ _ _ _ Hs) as [[a ->]|(a & -> & Hcode)];
      [reflexivity|]. rewrite Hcode. reflexivity.
Qed.

Lemma create_user_async_prints_witness :
  let svc :=
    UserService.__init__ (InMemoryUserRepository.__init__ 0 0%float)
      (StructuredLogger.__init__ LogLevel.INFO) 0%float in
  match UserService.create_user_async svc [] "Alice" "a@b.com" None 1%float with
  | Raise e (svc', _) =>
      map StructuredLogger.entry_message
          (StructuredLogger.stdout (UserService._logger svc'))
      = ["UserService initialized"; "Creating new user"; "Failed to create user"]
  | _ => False
  end.
Proof.
  intros svc.
  pose proof (create_user_async_prints svc [] "Alice" "a@b.com" None 1%float) as Hp.
  cbv zeta in Hp.
  destruct (UserService.create_user_async svc [] "Alice" "a@b.com" None 1%float)
    as [? [? ?]|e [svc' ?]|] eqn:E;
    [vm_compute in E; discriminate | | vm_compute in E; discriminate].
  rewrite Hp by (vm_compute; discriminate).
  assert (exists a, e = RepositoryError a) as [a ->]
    by (vm_compute in E; injection E as <- _ _; eexists; reflexivity).
  reflexivity.
Defined.

(** ** What [save] never stores *)

(** [save] never stores an object that fails validation: after a successful
    [save] the saved object, as it stands in the store, has an email with
    '@', '.' and more than 5 characters and an age that is absent or
    non-negative. *)
Theorem save_stores_only_valid_users (self : t) (h : Heap) (user : loc)
    (now : Timestamp) (k : UserId) (s : t * Heap) :
  save self h user now = Return k s ->
  exists u,
    find_by_id (fst s) k = Some user
    /\ snd s !! user = Some u
    /\ valid_user_data (User.email u) (User.age u).
Proof.
  intros Hs. destruct (save_Return_effect _ _ _ _ _ _ Hs) as (Hfind & _).
  unfold save in Hs. destruct (h !! user) as [u|] eqn:Hu; [|discriminate].
  assert (user < length h)%nat as Hlt by (eapply lookup_lt_Some; eauto).
  destruct (_ && _); [discriminate|].
  destruct (_ || _); (destruct (User.__post_init__ _) eqn:Hv; [discriminate|]);
    injection Hs as <- <-; simpl.
  - exists (User.set_id (_next_id self) u). split; [exact Hfind|].
    split; [now apply list_lookup_insert_eq|].
    apply (post_init_None (User.set_id (_next_id self) u)). exact Hv.
  - exists u. split; [exact Hfind|]. split; [exact Hu|].
    now apply post_init_None.
Qed.

Lemma save_stores_only_valid_users_witness :
  let w := run [NewUser alice] (init 1000 0%float) in
  exists s u,
    save (repo w) (heap w) 0%nat 0%float = Return 1 s
    /\ snd s !! 0%nat = Some u
    /\ valid_user_data (User.email u) (User.age u).
Proof.
  intros w.
  destruct (save (repo w) (heap w) 0%nat 0%float) as [k s|? ?|] eqn:E;
    [|vm_compute in E; discriminate|vm_compute in E; discriminate].
  assert (k = 1) as -> by (vm_compute in E; now injection E as <- _).
  destruct (save_stores_only_valid_users _ _ _ _ _ _ E) as (u & _ & Hu & Hv).
  exists s, u. auto.
Defined.

(** ** Ages beyond the range of a float *)

(** [__post_init__] puts no upper bound on an age, so a repository can hold
    users the mean of whose known ages is beyond the range of a float, such
    as a single user aged [10 ** 400].  For such a population
    [get_statistics] raises [OverflowError], whatever the capacity (the mean
    is computed before the utilisation, so even a capacity of zero is not
    reported), and so does the local reduction of the service. *)
Theorem statistics_overflow (self : t) (h : Heap) (now : Timestamp)
    (users : list User.t) :
  deref_all h (find_all self) = Some users ->
  ~ mean_age_in_range users ->
  get_statistics self h now
  = Raise (OverflowError "integer division result too large for a float") tt
  /\ UserService._calculate_basic_statistics users
     = inl (OverflowError "integer division result too large for a float").
Proof.
  intros Hd Hout.
  rewrite (get_statistics_eq self h now users Hd).
  rewrite (calculate_basic_statistics_eq users).
  rewrite (mean_age_out_of_range users Hout). split; reflexivity.
Qed.

Lemma statistics_overflow_witness :
  let w := run [NewUser methuselah; Save 0%nat 0%float] (init 1000 0%float) in
  find_by_id (repo w) 1 = Some 0%nat
  /\ (User.age <$> heap w !! 0%nat) = Some (Some (10 ^ 400))
  /\ get_statistics (repo w) (heap w) 1%float
     = Raise (OverflowError "integer division result too large for a float") tt.
Proof.
  intros w. split; [reflexivity|]. split; [reflexivity|].
  refine (proj1 (statistics_overflow (repo w) (heap w) 1%float
                   [User.set_id 1 methuselah] eq_refl _)).
  intros [Hnil|Hr]; [discriminate Hnil | vm_compute in Hr; discriminate Hr].
Defined.

(** ** [find_all] and [find_by_id] *)

Lemma dict_get_In_NoDup {K V} `{EqDecision K} (k : K) (v : V) (d : list (K * V)) :
  List.NoDup (dict_keys d) -> In (k, v) d -> dict_get k d = Some v.
Proof.
  unfold dict_keys. induction d as [|[k' v'] d IH]; simpl; [intros _ []|].
  intros Hnd. inversion_clear Hnd as [|? ? Hnotin Hnd'].
  intros [[= -> ->]|Hin].
  - destruct (decide (k = k)); [reflexivity | congruence].
  - destruct (decide (k = k')) as [->|Hne]; [|auto].
    exfalso. apply Hnotin. apply in_map_iff. exists (k', v). auto.
Qed.

Lemma dict_in_set {K V} `{EqDecision K} (j k : K) (v : V) (d : list (K * V)) :
  dict_in j (dict_set k v d) = if decide (j = k) then true else dict_in j d.
Proof.
  unfold dict_in. destruct (decide (j = k)) as [->|Hne].
  - now rewrite dict_get_set_eq.
  - now rewrite dict_get_set_ne.
Qed.

Lemma filter_all {A} (f : A -> bool) (l : list A) :
  (forall x, In x l -> f x = true) -> List.filter f l = l.
Proof.
  induction l as [|x l IH]; simpl; [reflexivity|]. intros Hall.
  rewrite (Hall x) by now left. f_equal. apply IH. intros y Hy. apply Hall.
  now right.
Qed.

Lemma filter_twice {A} (f g : A -> bool) (l : list A) :
  List.filter f (List.filter g l) = List.filter (fun x => g x && f x) l.
Proof.
  induction l as [|x l IH]; simpl; [reflexivity|].
  destruct (g x); simpl; [destruct (f x)|]; rewrite ?IH; reflexivity.
Qed.

Lemma dict_keys_del_filter {V} (k : UserId) (d : list (UserId * V)) :
  List.NoDup (dict_keys d) ->
  dict_keys (dict_del k d) = List.filter (fun j => negb (j =? k)) (dict_keys d).
Proof.
  unfold dict_keys. induction d as [|[k' v'] d IH]; simpl; [reflexivity|].
  intros Hnd. inversion_clear Hnd as [|? ? Hnotin Hnd'].
  destruct (decide (k = k')) as [->|Hne].
  - rewrite Z.eqb_refl. simpl. symmetry. apply filter_all.
    intros j Hj. destruct (Z.eqb_spec j k') as [->|_]; [contradiction | reflexivity].
  - destruct (Z.eqb_spec k' k) as [?|_]; [congruence|]. simpl. f_equal. auto.
Qed.

Lemma dict_in_del {V} (j k : UserId) (d : list (UserId * V)) :
  List.NoDup (dict_keys d) ->
  dict_in j (dict_del k d) = dict_in j d && negb (j =? k).
Proof.
  intros Hnd. apply Bool.eq_iff_eq_true.
  rewrite andb_true_iff, !dict_in_keys, dict_keys_del_filter by exact Hnd.
  rewrite filter_In. reflexivity.
Qed.

(** [filter] keeps the order of the elements it keeps. *)
Lemma filter_lookup_order {A} (f : A -> bool) (l : list A) (i j : nat) (x y : A) :
  List.filter f l !! i = Some x -> List.filter f l !! j = Some y -> (i < j)%nat ->
  exists a b, l !! a = Some x /\ l !! b = Some y /\ (a < b)%nat.
Proof.
  revert i j. induction l as [|z l IH]; intros i j; simpl; [discriminate|].
  assert (forall i j, List.filter f l !! i = Some x ->
            List.filter f l !! j = Some y -> (i < j)%nat ->
            exists a b, (z :: l) !! a = Some x /\ (z :: l) !! b = Some y
                        /\ (a < b)%nat) as shift.
  { intros i' j' Hi Hj Hij. destruct (IH i' j' Hi Hj Hij) as (a & b & Ha & Hb & Hab).
    exists (S a), (S b). repeat split; trivial. lia. }
  destruct (f z); [|apply shift].
  intros Hi Hj Hij. destruct j as [|j']; [lia|]. simpl in Hj.
  destruct i as [|i']; [|simpl in Hi; apply (shift i' j'); trivial; lia].
  simpl in Hi. injection Hi as ->.
  apply list_elem_of_lookup_2, list_elem_of_In, filter_In in Hj.
  destruct Hj as [Hj _]. apply list_elem_of_In, list_elem_of_lookup_1 in Hj.
  destruct Hj as [b Hb]. exists 0%nat, (S b). repeat split; trivial. lia.
Qed.

Lemma stored_app (ops ops' : list Op) (w : World) :
  stored (ops ++ ops') w = stored ops w ++ stored ops' (run ops w).
Proof.
  revert w. induction ops as [|op ops IH]; intros w; simpl; [reflexivity|].
  rewrite IH. destruct (stored_by w op); reflexivity.
Qed.

(** One step, against the identifiers stored so far. *)
Lemma stored_step (w : World) (op : Op) (st : list UserId) :
  Inv w ->
  keys w = List.filter (fun k => dict_in k (_users (repo w))) st ->
  Forall (fun k => k < next_id w) st ->
  List.NoDup st ->
  let st' := st ++ stored [op] w in
  keys (step w op)
  = List.filter (fun k => dict_in k (_users (repo (step w op)))) st'
  /\ Forall (fun k => k < next_id (step w op)) st'
  /\ List.NoDup st'.
Proof.
  intros HI Hkeys Hlt Hnd. unfold keys, next_id in *.
  assert (forall w', _users (repo w') = _users (repo w) ->
            _next_id (repo w) <= _next_id (repo w') ->
            stored [op] w = [] ->
            dict_keys (_users (repo w'))
            = List.filter (fun k => dict_in k (_users (repo w')))
                          (st ++ stored [op] w)
            /\ Forall (fun k => k < _next_id (repo w')) (st ++ stored [op] w)
            /\ List.NoDup (st ++ stored [op] w)) as same.
  { intros w' Hu Hn ->. rewrite app_nil_r, Hu. split; [exact Hkeys|].
    split; [|exact Hnd]. eapply List.Forall_impl; [|exact Hlt].
    simpl. intros; lia. }
  destruct op as [user now|k| |k|now|f|user f];
    try (apply same; [reflexivity | simpl; lia | reflexivity]).
  - (* save *)
    cbn [stored stored_by step].
    destruct (heap w !! user) as [u|] eqn:Hu.
    2:{ assert (save (repo w) (heap w) user now = Wrong) as E
          by (unfold save; now rewrite Hu).
        apply same; cbn [stored stored_by step]; rewrite E;
          [reflexivity | lia | reflexivity]. }
    destruct (at_capacity_and_absent (repo w) u) eqn:Hc.
    { pose proof (save_capacity _ _ _ _ now Hu Hc) as E.
      apply same; cbn [stored stored_by step]; rewrite E; simpl;
        [reflexivity | lia | reflexivity]. }
    destruct (takes_fresh_id (repo w) u) eqn:Hf.
    + pose proof (save_fresh_id _ _ _ _ now Hu Hc Hf) as E. cbv zeta in E.
      destruct (User.__post_init__ (User.set_id (_next_id (repo w)) u)).
      { apply same; cbn [stored stored_by step]; rewrite E; simpl;
          [reflexivity | lia | reflexivity]. }
      rewrite E. pose proof (next_id_absent w HI) as Habs.
      unfold next_id in Habs. rewrite Habs. simpl.
      rewrite dict_keys_set, Habs, Hkeys, List.filter_app. simpl.
      rewrite dict_in_set.
      destruct (decide (_next_id (repo w) = _next_id (repo w))); [|congruence].
      split; [|split].
      * f_equal. apply filter_ext_in. intros j Hj. rewrite dict_in_set.
        rewrite List.Forall_forall in Hlt. specialize (Hlt j Hj). simpl in Hlt.
        destruct (decide (j = _next_id (repo w))); [lia | reflexivity].
      * apply Forall_app. split.
        -- eapply List.Forall_impl; [|exact Hlt]. simpl. intros; lia.
        -- repeat constructor. lia.
      * apply NoDup_snoc; [exact Hnd|]. intros Hj.
        rewrite List.Forall_forall in Hlt. specialize (Hlt _ Hj). simpl in Hlt. lia.
    + pose proof (save_keep_id _ _ _ _ now Hu Hc Hf) as E.
      destruct (User.__post_init__ u).
      { apply same; cbn [stored stored_by step]; rewrite E; simpl;
          [reflexivity | lia | reflexivity]. }
      rewrite E. unfold takes_fresh_id in Hf.
      apply orb_false_iff in Hf. destruct Hf as [_ Hin].
      apply negb_false_iff in Hin. rewrite Hin. simpl.
      rewrite app_nil_r, dict_keys_set, Hin, Hkeys.
      split; [|split; [exact Hlt | exact Hnd]].
      apply filter_ext_in. intros j _. rewrite dict_in_set.
      destruct (decide (j = User.id u)) as [->|_]; [exact Hin | reflexivity].
  - (* delete *)
    cbn [stored stored_by step]. rewrite app_nil_r. unfold delete.
    pose proof (inv_nodup _ HI) as Hk. unfold keys in Hk.
    destruct (dict_in k (_users (repo w))) eqn:Hin; simpl;
      [|split; [exact Hkeys | split; [exact Hlt | exact Hnd]]].
    split; [|split; [exact Hlt | exact Hnd]].
    rewrite dict_keys_del_filter, Hkeys, filter_twice by exact Hk.
    apply filter_ext. intros j. now rewrite dict_in_del.
  - (* a new object *)
    apply same; [| |reflexivity]; unfold step;
      destruct (User.__init__ _ _ _ _ _ _ _ _); simpl; (reflexivity || lia).
Qed.

Lemma stored_run (ops : list Op) (max_users : Z) (t0 : Timestamp) :
  let w0 := init max_users t0 in
  let w := run ops w0 in
  keys w = List.filter (fun k => dict_in k (_users (repo w))) (stored ops w0)
  /\ Forall (fun k => k < next_id w) (stored ops w0)
  /\ List.NoDup (stored ops w0).
Proof.
  induction ops as [|op ops IH] using rev_ind; simpl.
  - split; [reflexivity|]. split; constructor.
  - destruct IH as (Hkeys & Hlt & Hnd).
    rewrite stored_app, run_app.
    apply stored_step; trivial. apply reachable_Inv.
Qed.

(** In a repository reached from [__init__], [find_all] lists exactly the
    objects [find_by_id] can find, one per stored identifier, in the order in
    which the identifiers were first stored along the run: the identifiers
    of the listed objects are those the successive calls of [save] stored,
    each of them stored for the first time once, with those deleted since
    left out. *)
Theorem find_all_in_order_first_stored
    (ops : list Op) (max_users : Z) (t0 : Timestamp) :
  let w0 := init max_users t0 in
  let w := run ops w0 in
  keys w = List.filter (fun k => dict_in k (_users (repo w))) (stored ops w0)
  /\ List.NoDup (stored ops w0)
  /\ (forall i j ki kj,
        keys w !! i = Some ki -> keys w !! j = Some kj -> (i < j)%nat ->
        exists a b,
          stored ops w0 !! a = Some ki /\ stored ops w0 !! b = Some kj
          /\ (a < b)%nat)
  /\ length (find_all (repo w)) = length (keys w)
  /\ (forall i k, keys w !! i = Some k ->
        find_by_id (repo w) k = find_all (repo w) !! i)
  /\ (forall l, In l (find_all (repo w))
        <-> exists k, find_by_id (repo w) k = Some l).
Proof.
  intros w0 w.
  destruct (stored_run ops max_users t0) as (Hkeys & _ & Hst).
  fold w0 in Hkeys, Hst. fold w in Hkeys.
  pose proof (inv_nodup _ (reachable_Inv ops max_users t0)) as Hnd.
  fold w0 in Hnd. fold w in Hnd.
  split; [exact Hkeys|]. split; [exact Hst|]. split; [|split; [|split]].
  - intros i j ki kj Hi Hj Hij.
    rewrite Hkeys in Hi, Hj. exact (filter_lookup_order _ _ _ _ _ _ Hi Hj Hij).
  - unfold keys, find_all, dict_values, dict_keys. now rewrite !length_map.
  - unfold keys, find_all, find_by_id, dict_values, dict_keys in *.
    intros i k. rewrite !list_lookup_fmap.
    destruct (_users (repo w) !! i) as [[k' l]|] eqn:E; [|discriminate].
    simpl. intros [= ->]. apply dict_get_In_NoDup; [exact Hnd|].
    apply list_elem_of_In. eapply list_elem_of_lookup_2. exact E.
  - unfold keys, find_all, find_by_id, dict_values, dict_keys in *.
    intros l. rewrite in_map_iff. split.
    + intros ([k l'] & <- & Hin). exists k. simpl.
      now apply dict_get_In_NoDup.
    + intros [k Hk]. exists (k, l). split; [reflexivity|].
      now apply dict_get_Some_in.
Qed.

(** Three users stored, the second deleted and its object saved again: the
    identifiers first stored are 1, 2, 3 and 4 in this order, and [find_all]
    lists the objects of 1, 3 and 4. *)
Example find_all_after_delete_and_save :
  let w0 := init 1000 0%float in
  let ops :=
    [NewUser alice; Save 0%nat 0%float; NewUser bob; Save 1%nat 0%float;
     NewUser alice; Save 2%nat 0%float; Delete 2; Save 1%nat 0%float] in
  stored ops w0 = [1; 2; 3; 4]
  /\ keys (run ops w0) = [1; 3; 4]
  /\ find_all (repo (run ops w0)) = [0%nat; 2%nat; 1%nat].
Proof. vm_compute. repeat split. Qed.
